(** * hecksum: reference resolution and checksum verification

    A shallow embedding of [src/hecksum.py] (the single-file version of the
    checker) and of [src/hecksum/references.py] (the packaged reference
    factories), with the library behaviour the two files rely on:
    Python's [str.strip], [str.format] and [re.search] on the patterns the
    factories use, [hashlib]'s SHA-256, pydantic's assignment validation and
    [requests.get].

    Python [str] values are Rocq strings; a character is a code point in
    U+0000..U+00FF. *)

From Stdlib Require Import ZArith List String Ascii Bool Lia.
From Stdlib.Strings Require Import Byte.
From stdpp Require Import gmap strings.
Import ListNotations.
Open Scope string_scope.

(* ================================================================= *)
(** ** Characters and strings *)

Module Text.

Definition code (c : ascii) : N := N_of_ascii c.

Definition between (lo hi : N) (c : ascii) : bool :=
  ((lo <=? code c) && (code c <=? hi))%N.

Definition newline : ascii := "010"%char.
Definition quote : ascii := "034"%char.

(** [\d] on [str] patterns: the decimal digits. *)
Definition is_decimal (c : ascii) : bool := between 48 57 c.

(** [str.isalnum] on U+0000..U+00FF: letters, decimal digits, and the
    Latin-1 letters, superscript digits and vulgar fractions. *)
Definition is_alnum (c : ascii) : bool :=
  is_decimal c || between 65 90 c || between 97 122 c
  || (code c =? 170)%N || between 178 179 c || (code c =? 181)%N
  || between 185 186 c || between 188 190 c
  || between 192 214 c || between 216 246 c || between 248 255 c.

(** [\w] on [str] patterns. *)
Definition is_word (c : ascii) : bool := is_alnum c || (code c =? 95)%N.

(** The characters [str.strip()] removes. *)
Definition is_space (c : ascii) : bool :=
  between 9 13 c || between 28 32 c || (code c =? 133)%N || (code c =? 160)%N.

Fixpoint lstrip (s : string) : string :=
  match s with
  | String c s' => if is_space c then lstrip s' else s
  | EmptyString => EmptyString
  end.

Fixpoint rstrip (s : string) : string :=
  match s with
  | String c s' =>
      match rstrip s' with
      | EmptyString => if is_space c then EmptyString else String c EmptyString
      | t => String c t
      end
  | EmptyString => EmptyString
  end.

(** [s.strip()] *)
Definition strip (s : string) : string := rstrip (lstrip s).

(** [s.endswith(suffix)] *)
Definition endswith (s suffix : string) : bool :=
  let n := String.length s in
  let k := String.length suffix in
  (k <=? n)%nat && String.eqb (substring (n - k) k s) suffix.

(** [c in s] for a character. *)
Fixpoint contains (c : ascii) (s : string) : bool :=
  match s with
  | String d s' => Ascii.eqb c d || contains c s'
  | EmptyString => false
  end.

(** What is left of [s] after its prefix [k], when [s] starts with [k]. *)
Fixpoint strip_prefix (k s : string) : option string :=
  match k, s with
  | EmptyString, _ => Some s
  | String a k', String b s' => if Ascii.eqb a b then strip_prefix k' s' else None
  | String _ _, EmptyString => None
  end.

(** [s.startswith(k)] *)
Definition startswith (s k : string) : bool :=
  match strip_prefix k s with
  | Some _ => true
  | None => false
  end.

(** [s.find(sub)]: where [sub] first occurs in [s]. *)
Fixpoint find (sub s : string) : option nat :=
  if startswith s sub then Some O
  else match s with
       | String _ s' => option_map S (find sub s')
       | EmptyString => None
       end.

(** [sub in s] *)
Definition occurs (sub s : string) : bool :=
  match find sub s with
  | Some _ => true
  | None => false
  end.

(** ["\n".join(lines)] *)
Definition join_lines (lines : list string) : string :=
  String.concat (String newline EmptyString) lines.

(** The text of [s] up to its first line break. *)
Fixpoint first_line (s : string) : string :=
  match s with
  | String c s' => if Ascii.eqb c newline then EmptyString else String c (first_line s')
  | EmptyString => EmptyString
  end.

(** Truthiness of an optional string: [None] and [''] are falsy. *)
Definition truthy (v : option string) : bool :=
  match v with
  | Some s => negb (String.eqb s EmptyString)
  | None => false
  end.

(** [str(v)] inside an f-string. *)
Definition to_str (v : option string) : string :=
  match v with
  | Some s => s
  | None => "None"
  end.

End Text.

(* ================================================================= *)
(** ** Regular expressions: the fragment of [re] the factories use

    Literal characters, [.], the escapes [\d] and [\w], bracketed sets of
    these, greedy [*] and [+] and counted [{n}] repetition of a single
    character pattern, concatenation and numbered groups.  Matching is
    backtracking in priority order, as in [re]: [run] lists every way a
    pattern can match at the start of the input, the preferred one first. *)

Module Re.
Import Text.

Inductive item :=
| IChr (c : ascii)
| IDigit
| IWord.

Inductive atom :=
| Lit (c : ascii)
| Dot
| Class (items : list item).

Inductive regex :=
| Eps
| One (a : atom)
| Star (a : atom)
| Plus (a : atom)
| Rep (n : nat) (a : atom)
| Cat (r1 r2 : regex)
| Group (n : nat) (r : regex).

Definition item_matches (i : item) (c : ascii) : bool :=
  match i with
  | IChr d => Ascii.eqb d c
  | IDigit => is_decimal c
  | IWord => is_word c
  end.

Definition atom_matches (a : atom) (c : ascii) : bool :=
  match a with
  | Lit d => Ascii.eqb d c
  | Dot => negb (Ascii.eqb c newline)
  | Class items => existsb (fun i => item_matches i c) items
  end.

Definition captures := list (nat * string).

(** One way of matching: the groups set so far, the text consumed, and the
    input that is left. *)
Definition way : Type := captures * string * string.

Definition extend (c : ascii) (w : string * string) : string * string :=
  (String c (fst w), snd w).

(** [a*] at the start of [s]: the longest run first, the empty one last. *)
Fixpoint star_run (a : atom) (s : string) : list (string * string) :=
  match s with
  | String c s' =>
      if atom_matches a c
      then List.map (extend c) (star_run a s') ++ [(EmptyString, s)]
      else [(EmptyString, s)]
  | EmptyString => [(EmptyString, EmptyString)]
  end.

(** [a{n}] at the start of [s]. *)
Fixpoint rep_run (n : nat) (a : atom) (s : string) : list (string * string) :=
  match n with
  | O => [(EmptyString, s)]
  | S n' =>
      match s with
      | String c s' =>
          if atom_matches a c then List.map (extend c) (rep_run n' a s') else []
      | EmptyString => []
      end
  end.

Definition with_caps (caps : captures) (w : string * string) : way :=
  (caps, fst w, snd w).

Definition after (m1 : string) (w : way) : way :=
  let '(c, m2, rest) := w in (c, m1 ++ m2, rest).

Definition capture (n : nat) (w : way) : way :=
  let '(c, m, rest) := w in ((n, m) :: c, m, rest).

Fixpoint run (r : regex) (s : string) (caps : captures) : list way :=
  match r with
  | Eps => [(caps, EmptyString, s)]
  | One a =>
      match s with
      | String c s' =>
          if atom_matches a c then [(caps, String c EmptyString, s')] else []
      | EmptyString => []
      end
  | Star a => List.map (with_caps caps) (star_run a s)
  | Plus a =>
      match s with
      | String c s' =>
          if atom_matches a c
          then List.map (with_caps caps) (List.map (extend c) (star_run a s'))
          else []
      | EmptyString => []
      end
  | Rep n a => List.map (with_caps caps) (rep_run n a s)
  | Cat r1 r2 =>
      List.flat_map
        (fun w1 : way =>
           let '(c1, m1, s1) := w1 in List.map (after m1) (run r2 s1 c1))
        (run r1 s caps)
  | Group n r' => List.map (capture n) (run r' s caps)
  end.

(** A match object: [m[0]] and the numbered groups. *)
Record Match := { whole : string; groups : captures }.

Fixpoint lookup_group (n : nat) (caps : captures) : option string :=
  match caps with
  | (k, v) :: caps' => if Nat.eqb k n then Some v else lookup_group n caps'
  | [] => None
  end.

(** [m.group(n)] and [m[n]]; a group that took no part gives [None]. *)
Definition group (m : Match) (n : nat) : option string :=
  match n with
  | O => Some (whole m)
  | _ => lookup_group n (groups m)
  end.

(** [re.match(r, s)] *)
Definition match_at (r : regex) (s : string) : option Match :=
  match run r s [] with
  | (c, m, _) :: _ => Some {| whole := m; groups := c |}
  | [] => None
  end.

(** [re.search(r, s)]: the match at the leftmost position that has one. *)
Fixpoint search (r : regex) (s : string) : option Match :=
  match match_at r s with
  | Some m => Some m
  | None =>
      match s with
      | String _ s' => search r s'
      | EmptyString => None
      end
  end.

(** The pattern that matches the characters of [s] literally. *)
Fixpoint lits (s : string) : regex :=
  match s with
  | String c s' => Cat (One (Lit c)) (lits s')
  | EmptyString => Eps
  end.

(** A string spliced into a pattern by an f-string, unescaped: [.] is the
    wildcard and every other character stands for itself.  This is what
    [re] makes of the string when it has no other metacharacter
    (see [plain]). *)
Fixpoint splice (s : string) : regex :=
  match s with
  | String c s' =>
      Cat (One (if Ascii.eqb c "."%char then Dot else Lit c)) (splice s')
  | EmptyString => Eps
  end.

Definition metachars : string := "\^$*+?{}[]()|".

(** No metacharacter other than [.], and no line break. *)
Fixpoint plain (s : string) : bool :=
  match s with
  | String c s' =>
      negb (contains c metachars) && negb (Ascii.eqb c newline) && plain s'
  | EmptyString => true
  end.

Definition cats (rs : list regex) : regex :=
  List.fold_right Cat Eps rs.

(** Patterns none of whose atoms can match a line break. *)
Definition item_nl_free (i : item) : bool :=
  match i with
  | IChr c => negb (Ascii.eqb c newline)
  | _ => true
  end.

Definition atom_nl_free (a : atom) : bool :=
  match a with
  | Lit c => negb (Ascii.eqb c newline)
  | Dot => true
  | Class items => forallb item_nl_free items
  end.

Fixpoint nl_free (r : regex) : bool :=
  match r with
  | Eps => true
  | One a | Star a | Plus a | Rep _ a => atom_nl_free a
  | Cat r1 r2 => nl_free r1 && nl_free r2
  | Group _ r' => nl_free r'
  end.

End Re.

(* ================================================================= *)
(** ** [hashlib]: SHA-256 (FIPS 180-4) on 32-bit words held in [Z] *)

Module Sha256.
Local Open Scope Z_scope.

Definition wrap (x : Z) : Z := x mod 2 ^ 32.
Definition add32 (x y : Z) : Z := wrap (x + y).
Definition rotr (n x : Z) : Z :=
  Z.lor (Z.shiftr x n) (wrap (Z.shiftl x (32 - n))).
Definition not32 (x : Z) : Z := Z.lxor x 0xffffffff.

Definition Ch (x y z : Z) : Z := Z.lxor (Z.land x y) (Z.land (not32 x) z).
Definition Maj (x y z : Z) : Z :=
  Z.lxor (Z.lxor (Z.land x y) (Z.land x z)) (Z.land y z).
Definition Sum0 (x : Z) : Z := Z.lxor (Z.lxor (rotr 2 x) (rotr 13 x)) (rotr 22 x).
Definition Sum1 (x : Z) : Z := Z.lxor (Z.lxor (rotr 6 x) (rotr 11 x)) (rotr 25 x).
Definition sig0 (x : Z) : Z := Z.lxor (Z.lxor (rotr 7 x) (rotr 18 x)) (Z.shiftr x 3).
Definition sig1 (x : Z) : Z := Z.lxor (Z.lxor (rotr 17 x) (rotr 19 x)) (Z.shiftr x 10).

(** The primes below 312: the first sixty-four. *)
Definition is_prime (n : nat) : bool :=
  List.forallb (fun d => negb (Nat.eqb (Nat.modulo n d) 0)) (List.seq 2 (n - 2)).

Definition primes : list Z :=
  List.map Z.of_nat (List.filter is_prime (List.seq 2 310)).

(** The largest [x] in [lo, hi) with [x ^ 3 <= n], by bisection. *)
Fixpoint cube_root (steps : nat) (lo hi n : Z) : Z :=
  match steps with
  | O => lo
  | S k =>
      let mid := (lo + hi) / 2 in
      if mid * mid * mid <=? n then cube_root k mid hi n else cube_root k lo mid n
  end.

(** The round constants: the first 32 bits of the fractional parts of the
    cube roots of the first sixty-four primes. *)
Definition K : list Z :=
  List.map (fun p => wrap (cube_root 40 0 (2 ^ 36) (p * 2 ^ 96))) primes.

(** The initial hash value: the first 32 bits of the fractional parts of
    the square roots of the first eight primes. *)
Definition IV : list Z :=
  List.map (fun p => wrap (Z.sqrt (p * 2 ^ 64))) (List.firstn 8 primes).

(** The [n] low bytes of [x], most significant first. *)
Fixpoint be_bytes (n : nat) (x : Z) : list Z :=
  match n with
  | O => []
  | S n' => be_bytes n' (Z.shiftr x 8) ++ [Z.land x 0xff]
  end.

(** The message, the bit 1, zero bits up to 448 mod 512, and the message
    length in bits on 64 bits. *)
Definition pad (msg : list Z) : list Z :=
  let len := Z.of_nat (List.length msg) in
  msg ++ [0x80] ++ List.repeat 0 (Z.to_nat ((55 - len) mod 64))
      ++ be_bytes 8 (8 * len).

Fixpoint words (fuel : nat) (bs : list Z) : list Z :=
  match fuel, bs with
  | S f, b0 :: b1 :: b2 :: b3 :: bs' =>
      (Z.shiftl b0 24 + Z.shiftl b1 16 + Z.shiftl b2 8 + b3) :: words f bs'
  | _, _ => []
  end.

Fixpoint blocks (fuel : nat) (ws : list Z) : list (list Z) :=
  match fuel, ws with
  | S f, _ :: _ => List.firstn 16 ws :: blocks f (List.skipn 16 ws)
  | _, _ => []
  end.

(** The message schedule, latest word first: [W t] is computed from the
    words 2, 7, 15 and 16 places before it. *)
Fixpoint schedule (n : nat) (rev_w : list Z) : list Z :=
  match n with
  | O => rev_w
  | S n' =>
      let w := add32 (add32 (sig1 (List.nth 1 rev_w 0)) (List.nth 6 rev_w 0))
                     (add32 (sig0 (List.nth 14 rev_w 0)) (List.nth 15 rev_w 0)) in
      schedule n' (w :: rev_w)
  end.

Definition round (v : list Z) (kw : Z * Z) : list Z :=
  match v with
  | [a; b; c; d; e; f; g; h] =>
      let t1 := add32 (add32 (add32 h (Sum1 e)) (add32 (Ch e f g) (fst kw))) (snd kw) in
      let t2 := add32 (Sum0 a) (Maj a b c) in
      [add32 t1 t2; a; b; c; add32 d t1; e; f; g]
  | _ => v
  end.

Definition compress (h : list Z) (block : list Z) : list Z :=
  let w := List.rev (schedule 48 (List.rev block)) in
  let v := List.fold_left round (List.combine K w) h in
  List.map (fun p : Z * Z => add32 (fst p) (snd p)) (List.combine h v).

Definition to_byte (z : Z) : byte :=
  match Byte.of_N (Z.to_N z) with
  | Some b => b
  | None => x00
  end.

Definition of_byte (b : byte) : Z := Z.of_N (Byte.to_N b).

(** [hashlib.sha256(msg).digest()] *)
Definition digest (msg : list byte) : list byte :=
  let padded := pad (List.map of_byte msg) in
  let ws := words (List.length padded) padded in
  let h := List.fold_left compress (blocks (List.length ws) ws) IV in
  List.map to_byte (List.flat_map (be_bytes 4) h).

End Sha256.

(** [bytes.hex()]: two lowercase hexadecimal digits for each byte. *)
Definition hex_digit (n : N) : ascii :=
  match String.get (N.to_nat n) "0123456789abcdef" with
  | Some c => c
  | None => "0"%char
  end.

Fixpoint hex (bs : list byte) : string :=
  match bs with
  | b :: bs' =>
      String (hex_digit (Byte.to_N b / 16)) (String (hex_digit (Byte.to_N b mod 16)) (hex bs'))
  | [] => EmptyString
  end.

(* ================================================================= *)
(** ** Exceptions, results and the state-and-exception monad *)

(** The exception classes the two files can meet.  The last two derive from
    [BaseException] only. *)
Inductive exn :=
| ConnectionError | Timeout | HTTPError | MissingSchema | InvalidURL
| AttributeError | TypeError | KeyError | IndexError | ValueError
| ValidationError
| KeyboardInterrupt | SystemExit.

(** [isinstance(e, Exception)] *)
Definition is_Exception (e : exn) : bool :=
  match e with
  | KeyboardInterrupt | SystemExit => false
  | _ => true
  end.

Inductive result (A : Type) :=
| Ok (a : A)
| Raise (e : exn).
Arguments Ok {A} a.
Arguments Raise {A} e.

(** A computation on a state [S] that returns or raises; what it wrote to the
    state before raising stays written. *)
Definition M (S A : Type) : Type := S -> result A * S.

Definition ret {S A} (a : A) : M S A := fun s => (Ok a, s).

Definition raise {S A} (e : exn) : M S A := fun s => (Raise e, s).

Definition bind {S A B} (m : M S A) (k : A -> M S B) : M S B :=
  fun s =>
    match m s with
    | (Ok a, s') => k a s'
    | (Raise e, s') => (Raise e, s')
    end.

Notation "'let*' x ':=' m 'in' k" := (bind m (fun x => k))
  (at level 10, x pattern, m at level 100, k at level 200).

(** [try: m  except <handled>: pass] *)
Definition try_pass {S} (m : M S unit) (handled : exn -> bool) : M S unit :=
  fun s =>
    match m s with
    | (Raise e, s') => if handled e then (Ok tt, s') else (Raise e, s')
    | done => done
    end.

(** A pure step that may raise. *)
Definition lift {S A} (r : result A) : M S A := fun s => (r, s).

(** [m.group(n)] on the outcome of [re.search], which is [None] when nothing
    matched. *)
Definition group_of (m : option Re.Match) (n : nat) : result (option string) :=
  match m with
  | Some m' => Ok (Re.group m' n)
  | None => Raise AttributeError
  end.

(** [m[n]] on the outcome of [re.search]. *)
Definition item_of (m : option Re.Match) (n : nat) : result (option string) :=
  match m with
  | Some m' => Ok (Re.group m' n)
  | None => Raise TypeError
  end.

(* ================================================================= *)
(** ** [requests] *)

Record Response := {
  status_code : Z;
  url : string;            (* the address the redirects ended at *)
  text : string;           (* the decoded body *)
  content : list byte      (* the body *)
}.

(** The remote side: what the [t]-th request of a run gets for an address. *)
Definition World : Type := nat -> string -> result Response.

(** [requests.get(u)]; [u] is [None] when the field it is read from is unset,
    and requests then finds no scheme in the address. *)
Definition http_get (w : World) (u : option string) (t : nat) : result Response * nat :=
  match u with
  | Some u' => (w t u', S t)
  | None => (Raise MissingSchema, t)
  end.

(** [r.raise_for_status()] *)
Definition raise_for_status (r : Response) : result unit :=
  if ((400 <=? status_code r) && (status_code r <? 600))%Z
  then Raise HTTPError else Ok tt.

(** The store of a [make()] call: the factory, the Reference being populated
    and the number of requests sent so far. *)
Record Store (F R : Type) := {
  self_ : F;
  ref_ : R;
  clock : nat
}.
Arguments self_ {F R} s.
Arguments ref_ {F R} s.
Arguments clock {F R} s.
Arguments Build_Store {F R} self_ ref_ clock.

Definition requests_get {F R} (w : World) (u : option string) : M (Store F R) Response :=
  fun st =>
    let '(r, t) := http_get w u (clock st) in
    (r, {| self_ := self_ st; ref_ := ref_ st; clock := t |}).

(** [get_raised], as src/hecksum.py defines it (lines 13-16). *)
Definition get_raised {F R} (w : World) (u : option string) : M (Store F R) Response :=
  let* r := requests_get w u in
  let* _ := lift (raise_for_status r) in
  ret r.

(** [r.iter_content(n)]: the body in slices of [n] bytes, the last one
    possibly shorter. *)
Fixpoint split_at {A} (n : N) (l : list A) : list A * list A :=
  match l with
  | x :: l' =>
      if (n =? 0)%N then ([], l)
      else let '(a, b) := split_at (N.pred n) l' in (x :: a, b)
  | [] => ([], [])
  end.

Fixpoint slices {A} (fuel : nat) (n : N) (l : list A) : list (list A) :=
  match fuel, l with
  | S f, _ :: _ => let '(a, b) := split_at n l in a :: slices f n b
  | _, _ => []
  end.

Definition iter_content (r : Response) (n : N) : list (list byte) :=
  slices (List.length (content r)) n (content r).

(* ================================================================= *)
(** ** [str.format(version=...)]

    Literal text, the escapes for braces, and replacement fields.  A field
    naming [version] is replaced; a field with a number or no name finds no
    positional argument; any other name finds no keyword.  A template with
    a field that carries a conversion, a format specification or an
    attribute or index access, or a field name with ten decimal digits in a
    row (a number that may not fit the index type), is left out: what
    [str.format] gives on it is a parameter of [format]. *)

Inductive fmt_mode :=
| Outside
| Opened
| Closed
| Field (name : string).

Fixpoint all_digits (s : string) : bool :=
  match s with
  | String c s' => Text.is_decimal c && all_digits s'
  | EmptyString => true
  end.

(** The value of a replacement field whose name is plain. *)
Definition field_value (field version : string) : result string :=
  if all_digits field then Raise IndexError
  else if String.eqb field "version" then Ok version
  else Raise KeyError.

Definition emit (c : ascii) (r : result string) : result string :=
  match r with
  | Ok s => Ok (String c s)
  | Raise e => Raise e
  end.

Fixpoint fmt (m : fmt_mode) (t version : string) : result string :=
  match m, t with
  | Outside, EmptyString => Ok EmptyString
  | Outside, String c t' =>
      if Ascii.eqb c "{" then fmt Opened t' version
      else if Ascii.eqb c "}" then fmt Closed t' version
      else emit c (fmt Outside t' version)
  | Opened, EmptyString => Raise ValueError
  | Opened, String c t' =>
      if Ascii.eqb c "{" then emit c (fmt Outside t' version)
      else if Ascii.eqb c "}"
           then (match field_value EmptyString version with
                 | Ok v => (match fmt Outside t' version with
                            | Ok s => Ok (v ++ s)
                            | Raise e => Raise e
                            end)
                 | Raise e => Raise e
                 end)
           else fmt (Field (String c EmptyString)) t' version
  | Closed, EmptyString => Raise ValueError
  | Closed, String c t' =>
      if Ascii.eqb c "}" then emit c (fmt Outside t' version)
      else Raise ValueError
  | Field _, EmptyString => Raise ValueError
  | Field name, String c t' =>
      if Ascii.eqb c "{" then Raise ValueError
      else if Ascii.eqb c "}"
           then (match field_value name version with
                 | Ok v => (match fmt Outside t' version with
                            | Ok s => Ok (v ++ s)
                            | Raise e => Raise e
                            end)
                 | Raise e => Raise e
                 end)
           else fmt (Field (name ++ String c EmptyString)) t' version
  end.

(** The templates [fmt] covers.  [inside] says whether an opening brace was
    the last brace read, [digits] how many decimal digits were just read
    there. *)
Fixpoint modelled_from (inside : bool) (digits : nat) (t : string) : bool :=
  match t with
  | String c t' =>
      if Ascii.eqb c "{" then modelled_from true 0 t'
      else if Ascii.eqb c "}" then modelled_from false 0 t'
      else if negb inside then modelled_from false 0 t'
      else if Text.contains c ".[!:" then false
      else if Text.is_decimal c
           then Nat.ltb digits 9 && modelled_from true (S digits) t'
           else modelled_from true 0 t'
  | EmptyString => true
  end.

Definition modelled (t : string) : bool := modelled_from false 0 t.

Section Format.
(** [str.format(version=...)] on the templates that are left out. *)
Variable format_beyond : string -> string -> result string.

(** [template.format(version=version)] *)
Definition format (template version : string) : result string :=
  if modelled template then fmt Outside template version
  else format_beyond template version.
End Format.

(* ================================================================= *)
(** ** The patterns both files search with *)

Module Patterns.

(** The pattern for the uploader script's version: VERSION= and, between
    double quotes, group 1, any run of characters. *)
Definition version_pattern : Re.regex :=
  Re.cats [Re.lits "VERSION="; Re.One (Re.Lit Text.quote);
           Re.Group 1 (Re.Star Re.Dot); Re.One (Re.Lit Text.quote)].

(** The pattern for the uploader's manifest line: group 1, any run of
    characters, then two spaces and the word codecov. *)
Definition codecov_pattern : Re.regex :=
  Re.cats [Re.Group 1 (Re.Star Re.Dot); Re.Rep 2 (Re.Lit " "); Re.lits "codecov"].

(** The pattern for a constant of the Transmission script: the key,
    spliced in unescaped, a colon, a space and, between double quotes,
    group 1, any run of characters. *)
Definition constant_pattern (key : string) : Re.regex :=
  Re.cats [Re.splice key; Re.lits ": "; Re.One (Re.Lit Text.quote);
           Re.Group 1 (Re.Star Re.Dot); Re.One (Re.Lit Text.quote)].

End Patterns.

(* ================================================================= *)
(** ** src/hecksum.py

    The bodies of the classes and methods are embedded as the file writes
    them.  The class statements of [CodecovBashUploader] and [Transmission]
    give [hasher] a value and no annotation; pydantic makes a field of such
    an attribute from the class of its value and has no validator for a
    built-in function, so the class statement raises and the statements
    after it do not run.  The instances of these classes and the registry
    the file writes are therefore not values of this embedding: [create]
    takes the registry as given. *)

Module Hecksum.

(** [class Reference(BaseModel)]: four optional strings, assigned without
    validation. *)
Record Reference := {
  hash_function : option string;
  checksum_url : option string;
  download_url : option string;
  checksum : option string
}.

(** [ref.<name>]: a name that is not a field of the model is an
    [AttributeError]. *)
Definition getattr (r : Reference) (name : string) : result (option string) :=
  if String.eqb name "hash_function" then Ok (hash_function r)
  else if String.eqb name "checksum_url" then Ok (checksum_url r)
  else if String.eqb name "download_url" then Ok (download_url r)
  else if String.eqb name "checksum" then Ok (checksum r)
  else Raise AttributeError.

(** The subclasses of [ReferenceFactory], each with its own [_populate]. *)
Inductive Strategy :=
| Generic
| CodecovBashUploader
| Transmission (file_name_template sha_key version_key : string).

Module Factory.
(** [class ReferenceFactory(BaseModel)]; the callable [hasher] is known
    by its [__qualname__]. *)
Record ReferenceFactory := {
  hasher : string;
  checksum_url : option string;
  download_url : option string;
  checksum : option string;
  strategy : Strategy
}.
End Factory.
Abbreviation ReferenceFactory := Factory.ReferenceFactory.

(** The Reference [make] builds from the factory's fields. *)
Definition new_Reference (self : ReferenceFactory) : Reference :=
  {| checksum_url := Factory.checksum_url self;
     download_url := Factory.download_url self;
     checksum := Factory.checksum self;
     hash_function := Some (Factory.hasher self) |}.

Abbreviation State := (Store ReferenceFactory Reference).

Definition update_ref (f : Reference -> Reference) : M State unit :=
  fun st => (Ok tt, {| self_ := self_ st; ref_ := f (ref_ st); clock := clock st |}).

Definition read_ref {A} (f : Reference -> A) : M State A :=
  fun st => (Ok (f (ref_ st)), st).

(** [ref.<name>] during population. *)
Definition read_attr (name : string) : M State (option string) :=
  fun st => (getattr (ref_ st) name, st).

Definition set_checksum (v : option string) : M State unit :=
  update_ref (fun r => {| hash_function := hash_function r;
                          checksum_url := checksum_url r;
                          download_url := download_url r;
                          checksum := v |}).

Definition set_checksum_url (v : option string) : M State unit :=
  update_ref (fun r => {| hash_function := hash_function r;
                          checksum_url := v;
                          download_url := download_url r;
                          checksum := checksum r |}).

Definition set_download_url (v : option string) : M State unit :=
  update_ref (fun r => {| hash_function := hash_function r;
                          checksum_url := checksum_url r;
                          download_url := v;
                          checksum := checksum r |}).

Section Run.
Variable w : World.
Variable format_beyond : string -> string -> result string.

(** [ReferenceFactory._populate] *)
Definition populate_generic : M State unit :=
  let* u := read_ref checksum_url in
  let* r := get_raised w u in
  set_checksum (Some (text r)).

(** [CodecovBashUploader._populate] *)
Definition populate_codecov : M State unit :=
  let* u := read_ref download_url in
  let* r := get_raised w u in
  let script := text r in
  let* version := lift (group_of (Re.search Patterns.version_pattern script) 1) in
  let* _ := set_checksum_url
              (Some ("https://raw.githubusercontent.com/codecov/codecov-bash/"
                     ++ Text.to_str version ++ "/SHA512SUM")) in
  let* u' := read_ref checksum_url in
  let* r' := get_raised w u' in
  let* c := lift (group_of (Re.search Patterns.codecov_pattern (text r')) 1) in
  set_checksum c.

(** [Transmission._populate]: the keys are read from [ref], which has no
    such attributes. *)
Definition populate_transmission : M State unit :=
  let* u := read_ref checksum_url in
  let* r := get_raised w u in
  let* sha_key := read_attr "sha_key" in
  let* c := lift (group_of
              (Re.search (Patterns.constant_pattern (Text.to_str sha_key))
                         (text r)) 1) in
  let* _ := set_checksum c in
  let* version_key := read_attr "version_key" in
  let* version := lift (group_of
              (Re.search (Patterns.constant_pattern (Text.to_str version_key))
                         (text r)) 1) in
  let* template := read_attr "file_name_template" in
  let* file_name :=
    lift (format format_beyond (Text.to_str template) (Text.to_str version)) in
  set_download_url
    (Some ("https://github.com/transmission/transmission-releases/raw/master/"
           ++ file_name)).

Definition _populate : M State unit :=
  fun st =>
    match Factory.strategy (self_ st) with
    | Generic => populate_generic st
    | CodecovBashUploader => populate_codecov st
    | Transmission _ _ _ => populate_transmission st
    end.

(** [ReferenceFactory.make], run when [t] requests have been sent: the
    outcome, the factory afterwards and the new request count. *)
Definition make (self : ReferenceFactory) (t : nat)
  : result Reference * ReferenceFactory * nat :=
  let ref := new_Reference self in
  let '(r, st) := try_pass _populate is_Exception
                    {| self_ := self; ref_ := ref; clock := t |} in
  (match r with
   | Ok _ => Ok (ref_ st)
   | Raise e => Raise e
   end, self_ st, clock st).
End Run.

(** [ReferenceFactory(download_url=..., checksum_url=...,
    hasher=hashlib.sha512)]: the factory of the base class the file
    writes. *)
Definition test_failure : ReferenceFactory :=
  {| Factory.hasher := "openssl_sha512";
     Factory.checksum_url := Some "https://hecksum.com/failureSHA512.txt";
     Factory.download_url := Some "https://hecksum.com/failure.txt";
     Factory.checksum := None;
     Factory.strategy := Generic |}.

Record Project := {
  name : string;
  airtable_id : string
}.

Inductive Status := passing | error | failing.

Record Check := {
  project : Project;
  status : Status;
  check_checksum : option string;
  check_checksum_url : option string;
  check_download_url : option string
}.

(** [ref.checksum == download_checksum] *)
Definition same (expected : option string) (computed : string) : bool :=
  match expected with
  | Some c => String.eqb c computed
  | None => false
  end.

Section Checks.
(** [Project.REFERENCE_FACTORIES] *)
Variable REFERENCE_FACTORIES : gmap string ReferenceFactory.
Variable w : World.
Variable format_beyond : string -> string -> result string.

(** [Project.reference]: a project the registry does not know is a
    [KeyError]. *)
Definition reference (p : Project) (t : nat) : result Reference * nat :=
  match REFERENCE_FACTORIES !! airtable_id p with
  | Some f => let '(r, _, t') := make w format_beyond f t in (r, t')
  | None => (Raise KeyError, t)
  end.

(** [Check.create_download_checksum(url, hasher)]; [hasher] is the value
    of a Reference attribute, a string or [None], and calling it is a
    [TypeError]. *)
Definition create_download_checksum (u : option string) (hasher : option string)
  : M nat string :=
  let* r := http_get w u in
  let* _ := lift (raise_for_status r) in
  raise TypeError.

(** [Check.create] *)
Definition create (p : Project) : M nat Check :=
  let* ref := reference p in
  fun t =>
    let attempt :=
      (let* hasher := lift (getattr ref "hash_func") in
       create_download_checksum (download_url ref) hasher) t in
    let finish (s : Status) :=
      {| project := p; status := s; check_checksum := checksum ref;
         check_checksum_url := checksum_url ref;
         check_download_url := download_url ref |} in
    match attempt with
    | (Raise e, t') =>
        if is_Exception e then (Ok (finish error), t') else (Raise e, t')
    | (Ok download_checksum, t') =>
        (Ok (finish (if same (checksum ref) download_checksum
                     then passing else failing)), t')
    end.
End Checks.

(** [status.value]: the string a member of the enumeration stands for. *)
Definition status_value (s : Status) : string :=
  match s with
  | passing => "Passing"
  | error => "Error"
  | failing => "Failing"
  end.

(** The record [post] sends: the [fields] of the payload and [typecast]. *)
Record Payload := {
  fields_Project : list string;
  fields_Status : string;
  fields_Checksum_URL : option string;
  fields_Download : option string;
  fields_Checksum : option string;
  typecast : bool
}.

(** A call of [requests.post(url, json=..., headers=...)]. *)
Record Post := {
  post_url : string;
  post_json : Payload;
  post_headers : list (string * string)
}.

(** The tracking side: what the [t]-th request of a run gets for a post. *)
Definition Sink : Type := nat -> Post -> result Response.

(** [Check.post]; [environ] is [os.environ], and the answer of the
    tracking side is dropped. *)
Definition post (environ : gmap string string) (sink : Sink) (self : Check)
  : M nat unit :=
  match environ !! "AIRTABLE_API_KEY" with
  | None => raise KeyError
  | Some key =>
      let headers := [("Authorization", "Bearer " ++ key)] in
      let payload :=
        {| fields_Project := [airtable_id (project self)];
           fields_Status := status_value (status self);
           fields_Checksum_URL := check_checksum_url self;
           fields_Download := check_download_url self;
           fields_Checksum := check_checksum self;
           typecast := true |} in
      fun t =>
        match sink t {| post_url := "https://api.airtable.com/v0/appPt1p6IWk5Cjv2E/Checks";
                        post_json := payload;
                        post_headers := headers |} with
        | Ok _ => (Ok tt, S t)
        | Raise e => (Raise e, S t)
        end
  end.

End Hecksum.

(* ================================================================= *)
(** ** src/hecksum/references.py *)

Module References.

(** [class Reference(BaseReference)], with [validate_assignment]. *)
Record Reference := {
  algorithm : string;
  checksum_url : option string;
  download_url : option string;
  checksum : option string
}.

(** [self.dict()] *)
Definition dict (r : Reference) : list (string * option string) :=
  [("algorithm", Some (algorithm r)); ("checksum_url", checksum_url r);
   ("download_url", download_url r); ("checksum", checksum r)].

(** [Reference.populated] *)
Definition populated (r : Reference) : bool :=
  List.forallb Text.truthy (List.map snd (dict r)).

Inductive Strategy :=
| Generic
| CodecovBashUploader
| Transmission (file_name_template sha_key version_key : string)
| Doppler (architecture : string).

Module Factory.
(** [class ReferenceFactory(BaseReference)], with the fields its
    subclass adds in [strategy]. *)
Record ReferenceFactory := {
  algorithm : string;
  checksum_url : option string;
  download_url : option string;
  checksum : option string;
  strategy : Strategy
}.
End Factory.
Abbreviation ReferenceFactory := Factory.ReferenceFactory.

Abbreviation State := (Store ReferenceFactory Reference).

Definition read_ref {A} (f : Reference -> A) : M State A :=
  fun st => (Ok (f (ref_ st)), st).

Definition update_ref (f : Reference -> Reference) : M State unit :=
  fun st => (Ok tt, {| self_ := self_ st; ref_ := f (ref_ st); clock := clock st |}).

(** The pattern for the release number in the redirect target: three runs
    of digits separated by dots. *)
Definition release_pattern : Re.regex :=
  Re.cats [Re.Plus (Re.Class [Re.IDigit]); Re.One (Re.Lit ".");
           Re.Plus (Re.Class [Re.IDigit]); Re.One (Re.Lit ".");
           Re.Plus (Re.Class [Re.IDigit])].

(** The pattern for a manifest line: group 1, sixty-four word characters;
    two spaces; group 2, the file name made of doppler_, the release
    number, the architecture, a dot and a run of word characters and
    dots.  Release number and architecture are spliced in unescaped. *)
Definition doppler_pattern (version architecture : string) : Re.regex :=
  Re.cats [Re.Group 1 (Re.Rep 64 (Re.Class [Re.IWord; Re.IDigit]));
           Re.Rep 2 (Re.Lit " ");
           Re.Group 2 (Re.cats [Re.lits "doppler_"; Re.splice version;
                                Re.One (Re.Lit "_"); Re.splice architecture;
                                Re.One (Re.Lit ".");
                                Re.Plus (Re.Class [Re.IWord; Re.IChr "."])])].

Definition latest_release : string := "https://github.com/DopplerHQ/cli/releases/latest".

(** The address of a release's checksum manifest. *)
Definition manifest_url (version : string) : string :=
  "https://github.com/DopplerHQ/cli/releases/download/" ++ version ++ "/checksums.txt".

(** The address of a release's file. *)
Definition release_url (version release_file_name : string) : string :=
  "https://github.com/DopplerHQ/cli/releases/download/"
  ++ version ++ "/" ++ release_file_name.

(** The address of a Transmission release file. *)
Definition transmission_url (file_name : string) : string :=
  "https://github.com/transmission/transmission-releases/raw/master/" ++ file_name.

Section Settings.
(** [settings.IGNORED_EXCEPTIONS]; settings.py is not in src/. *)
Variable IGNORED_EXCEPTIONS : exn -> bool.
(** pydantic's validation of a value for an [HttpUrl] field: the address
    it stores, or nothing when it rejects the value. *)
Variable HttpUrl : string -> option string.
(** What [hashlib.new] knows besides sha256. *)
Variable other_algorithm : string -> option (list byte -> list byte).
Variable w : World.
Variable format_beyond : string -> string -> result string.

Definition validate_url (v : option string) : result (option string) :=
  match v with
  | Some u =>
      match HttpUrl u with
      | Some u' => Ok (Some u')
      | None => Raise ValidationError
      end
  | None => Ok None
  end.

(** Validation of a value for [checksum]: whitespace is stripped. *)
Definition validate_checksum (v : option string) : option string :=
  option_map Text.strip v.

(** [Reference(algorithm=..., checksum_url=..., ...)] *)
Definition new_Reference (alg : string) (cu du ck : option string)
  : result Reference :=
  match validate_url cu, validate_url du with
  | Ok cu', Ok du' =>
      Ok {| algorithm := alg; checksum_url := cu'; download_url := du';
            checksum := validate_checksum ck |}
  | _, _ => Raise ValidationError
  end.

(** [Reference( **self.dict() )]: the fields the subclass adds are not
    fields of a Reference and are dropped. *)
Definition Reference_of (self : ReferenceFactory) : result Reference :=
  new_Reference (Factory.algorithm self) (Factory.checksum_url self)
                (Factory.download_url self) (Factory.checksum self).

(** [ref.checksum = v] *)
Definition set_checksum (v : option string) : M State unit :=
  update_ref (fun r => {| algorithm := algorithm r;
                          checksum_url := checksum_url r;
                          download_url := download_url r;
                          checksum := validate_checksum v |}).

(** [ref.checksum_url = v] *)
Definition set_checksum_url (v : string) : M State unit :=
  let* u := lift (validate_url (Some v)) in
  update_ref (fun r => {| algorithm := algorithm r;
                          checksum_url := u;
                          download_url := download_url r;
                          checksum := checksum r |}).

(** [ref.download_url = v] *)
Definition set_download_url (v : string) : M State unit :=
  let* u := lift (validate_url (Some v)) in
  update_ref (fun r => {| algorithm := algorithm r;
                          checksum_url := checksum_url r;
                          download_url := u;
                          checksum := checksum r |}).

(** Modelled from the spec: [hecksum.functions.get_raised], which this
    file imports and src/ does not hold: the fetch helper performs an
    HTTP GET and raises on non-success status.  It is the [get_raised]
    of src/hecksum.py. *)
Definition get_raised (u : option string) : M State Response :=
  get_raised w u.

(** [ReferenceFactory._populate] *)
Definition populate_generic : M State unit :=
  let* u := read_ref checksum_url in
  let* r := get_raised u in
  set_checksum (Some (text r)).

(** [CodecovBashUploader._populate] *)
Definition populate_codecov : M State unit :=
  let* u := read_ref download_url in
  let* r := get_raised u in
  let script := text r in
  let* version := lift (group_of (Re.search Patterns.version_pattern script) 1) in
  let* _ := set_checksum_url
              ("https://raw.githubusercontent.com/codecov/codecov-bash/"
               ++ Text.to_str version ++ "/SHA512SUM") in
  let* u' := read_ref checksum_url in
  let* r' := get_raised u' in
  let* c := lift (group_of (Re.search Patterns.codecov_pattern (text r')) 1) in
  set_checksum c.

(** [Transmission._populate] *)
Definition populate_transmission (file_name_template sha_key version_key : string)
  : M State unit :=
  let* u := read_ref checksum_url in
  let* r := get_raised u in
  let constants := text r in
  let* c := lift (group_of (Re.search (Patterns.constant_pattern sha_key) constants) 1) in
  let* _ := set_checksum c in
  let* version :=
    lift (group_of (Re.search (Patterns.constant_pattern version_key) constants) 1) in
  let* file_name :=
    lift (format format_beyond file_name_template (Text.to_str version)) in
  set_download_url (transmission_url file_name).

(** [Doppler._populate] *)
Definition populate_doppler (architecture : string) : M State unit :=
  let* r := requests_get w (Some latest_release) in
  let latest_release_url := url r in
  let* version := lift (item_of (Re.search release_pattern latest_release_url) 0) in
  let version := Text.to_str version in
  let* _ := set_checksum_url (manifest_url version) in
  let* u := read_ref checksum_url in
  let* r' := get_raised u in
  let release_chucksum :=
    Re.search (doppler_pattern version architecture) (text r') in
  let* c := lift (group_of release_chucksum 1) in
  let* _ := set_checksum c in
  let* release_file_name := lift (group_of release_chucksum 2) in
  set_download_url (release_url version (Text.to_str release_file_name)).

(** [self._populate(ref)], dispatched on the class of [self]. *)
Definition _populate : M State unit :=
  fun st =>
    match Factory.strategy (self_ st) with
    | Generic => populate_generic st
    | CodecovBashUploader => populate_codecov st
    | Transmission file_name_template sha_key version_key =>
        populate_transmission file_name_template sha_key version_key st
    | Doppler architecture => populate_doppler architecture st
    end.

(** [ReferenceFactory.make], run when [t] requests have been sent: the
    outcome, the factory afterwards and the new request count. *)
Definition make (self : ReferenceFactory) (t : nat)
  : result Reference * ReferenceFactory * nat :=
  match Reference_of self with
  | Raise e => (Raise e, self, t)
  | Ok ref =>
      let '(r, st) := try_pass _populate IGNORED_EXCEPTIONS
                        {| self_ := self; ref_ := ref; clock := t |} in
      (match r with
       | Ok _ => Ok (ref_ st)
       | Raise e => Raise e
       end, self_ st, clock st)
  end.

(** A [hashlib] hash object: the algorithm and the bytes fed so far. *)
Record HASH := {
  algo : list byte -> list byte;
  fed : list byte
}.

(** [hashlib.new(name)] *)
Definition hashlib_new (name : string) : result HASH :=
  if String.eqb name "sha256" then Ok {| algo := Sha256.digest; fed := [] |}
  else match other_algorithm name with
       | Some f => Ok {| algo := f; fed := [] |}
       | None => Raise ValueError
       end.

(** [h.update(chunk)] *)
Definition update (h : HASH) (chunk : list byte) : HASH :=
  {| algo := algo h; fed := fed h ++ chunk |}.

(** [h.hexdigest()] *)
Definition hexdigest (h : HASH) : string := hex (algo h (fed h)).

(** [Reference.get_download_checksum] *)
Definition get_download_checksum (self : Reference) : M nat string :=
  let* h := lift (hashlib_new (algorithm self)) in
  let* r := http_get w (download_url self) in
  let* _ := lift (raise_for_status r) in
  let h := List.fold_left update (iter_content r (1024 ^ 2)) h in
  let checksum := hexdigest h in
  ret checksum.
End Settings.

Definition codecov_bash_uploader : ReferenceFactory :=
  {| Factory.algorithm := "sha512";
     Factory.checksum_url := None;
     Factory.download_url := Some "https://codecov.io/bash";
     Factory.checksum := None;
     Factory.strategy := CodecovBashUploader |}.

Definition test_failure : ReferenceFactory :=
  {| Factory.algorithm := "sha512";
     Factory.checksum_url := Some "https://hecksum.com/failureSHA512.txt";
     Factory.download_url := Some "https://hecksum.com/failure.txt";
     Factory.checksum := None;
     Factory.strategy := Generic |}.

Definition transmission (file_name_template sha_key version_key : string)
  : ReferenceFactory :=
  {| Factory.algorithm := "sha256";
     Factory.checksum_url := Some "https://transmissionbt.com/includes/js/constants.js";
     Factory.download_url := None;
     Factory.checksum := None;
     Factory.strategy := Transmission file_name_template sha_key version_key |}.

Definition transmission_mac :=
  transmission "Transmission-{version}.dmg" "sha256_dmg" "current_version_dmg".
Definition transmission_win_32 :=
  transmission "transmission-{version}-x86.msi" "sha256_msi32" "current_version_msi".
Definition transmission_win_64 :=
  transmission "transmission-{version}-x64.msi" "sha256_msi64" "current_version_msi".
Definition transmission_linux :=
  transmission "transmission-{version}.tar.xz" "sha256_tar" "current_version_tar".

Definition doppler (architecture : string) : ReferenceFactory :=
  {| Factory.algorithm := "sha256";
     Factory.checksum_url := None;
     Factory.download_url := None;
     Factory.checksum := None;
     Factory.strategy := Doppler architecture |}.

Definition doppler_windows_armv7 := doppler "linux_arm64".

End References.

(* ================================================================= *)
(** ** Vocabulary of the statements and proofs *)

Section MatchingTerms.
Import Text Re.

(** The same way of matching, with [x] appended to the input left over. *)
Definition more (x : string) (p : string * string) : string * string :=
  (fst p, snd p ++ x).

Definition more_way (x : string) (w : way) : way :=
  let '(c, m, rest) := w in (c, m, rest ++ x).

(** The text a constant's pattern starts with: the key, a colon, a space
    and a double quote. *)
Definition opening (key : string) : string :=
  key ++ ": " ++ String quote EmptyString.

(** The rest of the pattern: group 1 and the closing quote. *)
Definition quoted : regex :=
  Cat (Group 1 (Star Dot)) (Cat (One (Lit quote)) Eps).

Definition opens_with_quote (p : string * string) : bool :=
  startswith (snd p) (String quote EmptyString).

Definition prepend (v : string) (p : string * string) : string * string :=
  (v ++ fst p, snd p).

(** What follows one way of matching the group. *)
Definition close_quote (caps : captures) (p : string * string) : list way :=
  List.map (after (fst p))
    (run (Cat (One (Lit quote)) Eps) (snd p) ((1, fst p) :: caps)).

(** The text consumed has no line break. *)
Definition line_bound (p : string * string) : Prop :=
  contains newline (fst p) = false.

Definition line_bound_way (w : way) : Prop :=
  contains newline (snd (fst w)) = false.

(** Whether the pattern has a group numbered [n]. *)
Fixpoint defines (r : regex) (n : nat) : bool :=
  match r with
  | Cat r1 r2 => defines r1 n || defines r2 n
  | Group k r' => Nat.eqb k n || defines r' n
  | _ => false
  end.

(** Every character of the string passes the test. *)
Fixpoint all_chars (p : ascii -> bool) (s : string) : bool :=
  match s with
  | String c s' => p c && all_chars p s'
  | EmptyString => true
  end.

(** The characters a checksum of the manifest is made of. *)
Definition checksum_char (c : ascii) : bool :=
  atom_matches (Class [IWord; IDigit]) c.
End MatchingTerms.

(** The last character of [s], or [d] when [s] is empty. *)
Fixpoint last_char (s : string) (d : ascii) : ascii :=
  match s with
  | String c s' => last_char s' c
  | EmptyString => d
  end.

(** A text that neither starts nor ends with whitespace. *)
Definition bare (s : string) : bool :=
  match s with
  | String c s' => negb (Text.is_space c) && negb (Text.is_space (last_char s' c))
  | EmptyString => true
  end.



(** What a computation leaves alone.
    [keeps_self m]: [m] never writes to the factory.
    [timeless m]: run from two stores that hold the same factory and the
    same Reference, [m] ends the same way in both, whatever the two request
    counts are. *)
Section StoreTerms.
Context {F R : Type}.

Definition keeps_self {A} (m : M (Store F R) A) : Prop :=
  forall st, self_ (snd (m st)) = self_ st.

Definition same_objects (s1 s2 : Store F R) : Prop :=
  self_ s1 = self_ s2 /\ ref_ s1 = ref_ s2.

Definition timeless {A} (m : M (Store F R) A) : Prop :=
  forall s1 s2, same_objects s1 s2 ->
    fst (m s1) = fst (m s2) /\ same_objects (snd (m s1)) (snd (m s2)).
End StoreTerms.

(** The remote side answers a request the same way whenever it is sent. *)
Definition steady (w : World) : Prop :=
  forall t t' u, w t u = w t' u.

(** The remote side fails with exceptions only, never with an interrupt or
    an exit. *)
Definition benign (w : World) : Prop :=
  forall t u e, w t u = Raise e -> is_Exception e = true.

(** Whatever [m] raises derives from [Exception]. *)
Definition raises_exceptions {S A} (m : M S A) : Prop :=
  forall st e st', m st = (Raise e, st') -> is_Exception e = true.

Definition fails_with_exception {A} (r : result A) : Prop :=
  forall e, r = Raise e -> is_Exception e = true.

(* ================================================================= *)
(** ** Vocabulary of the further properties *)

(** An optional text that, when set, neither starts nor ends with
    whitespace. *)
Definition stripped (v : option string) : Prop :=
  forall c, v = Some c -> bare c = true.

(** An optional address that the validation of addresses has produced. *)
Definition validated (HttpUrl : string -> option string) (v : option string) : Prop :=
  forall u, v = Some u -> exists x, HttpUrl x = Some u.

(** What every Reference in the hands of [make] satisfies. *)
Definition well_formed (HttpUrl : string -> option string) (alg : string)
  (r : References.Reference) : Prop :=
  References.algorithm r = alg
  /\ validated HttpUrl (References.checksum_url r)
  /\ validated HttpUrl (References.download_url r)
  /\ stripped (References.checksum r).

Section CountingTerms.
Context {F R : Type}.

(** [m] keeps a property of the Reference. *)
Definition ref_keeps {A} (P : R -> Prop) (m : M (Store F R) A) : Prop :=
  forall st, P (ref_ st) -> P (ref_ (snd (m st))).

(** [m] sends at most [k] requests. *)
Definition sends {A} (k : nat) (m : M (Store F R) A) : Prop :=
  forall st, clock st <= clock (snd (m st)) <= clock st + k.

(** [m] leaves the Reference as it is. *)
Definition reads_only {A} (m : M (Store F R) A) : Prop :=
  forall st, ref_ (snd (m st)) = ref_ st.
End CountingTerms.

(** A lowercase hexadecimal digit. *)
Definition is_hex (c : ascii) : bool :=
  Text.between 48 57 c || Text.between 97 102 c.

(** No brace in the text. *)
Fixpoint brace_free (s : string) : bool :=
  match s with
  | String c s' =>
      negb (Ascii.eqb c "{") && negb (Ascii.eqb c "}") && brace_free s'
  | EmptyString => true
  end.

(** The text the uploader script's version pattern starts with. *)
Definition version_opening : string :=
  "VERSION=" ++ String Text.quote EmptyString.

(** The address of the uploader's checksum manifest for a version. *)
Definition codecov_manifest (version : string) : string :=
  "https://raw.githubusercontent.com/codecov/codecov-bash/" ++ version ++ "/SHA512SUM".

(** The tail of the uploader's manifest line. *)
Definition codecov_tail : string := "  codecov".


(* ================================================================= *)
(** ** Sample settings, factories and remote sides *)

Module Sample.

Definition nl : string := String Text.newline EmptyString.
Definition dq : string := String Text.quote EmptyString.

(** A successful response with the given body text. *)
Definition page (body : string) : Response :=
  {| status_code := 200; url := "https://example.org/"; text := body; content := [] |}.

(** A successful response with the given body bytes. *)
Definition file (body : list byte) : Response :=
  {| status_code := 200; url := "https://example.org/"; text := EmptyString;
     content := body |}.

(** Network and parse failures are ignorable. *)
Definition ignorable (e : exn) : bool :=
  match e with
  | ConnectionError | Timeout | HTTPError | MissingSchema | InvalidURL
  | AttributeError | TypeError => true
  | _ => false
  end.

(** Two spaces and a tab; a carriage return and a line break. *)
Definition indent : string := "  " ++ String "009" EmptyString.
Definition line_end : string := String "013" (String Text.newline EmptyString).

(** A checksum with whitespace inside it and around it. *)
Definition padded : string := indent ++ "abc 123" ++ line_end.

(** A validator that keeps any address with an http scheme as it is. *)
Definition accept_http (s : string) : option string :=
  if Text.startswith s "http" then Some s else None.

Definition sha256_only (name : string) : option (list byte -> list byte) := None.

(** Every request fails to connect. *)
Definition offline : World := fun _ _ => Raise ConnectionError.


(** Every address serves the same text. *)
Definition serving (body : string) : World := fun _ _ => Ok (page body).

(** Every address serves the same bytes. *)
Definition serving_file (body : list byte) : World := fun _ _ => Ok (file body).

(** Templates the model of [str.format] leaves out are refused. *)
Definition beyond : string -> string -> result string :=
  fun _ _ => Raise ValueError.


(** A factory as the class [CodecovBashUploader] of src/hecksum.py
    describes one. *)
Definition legacy_uploader : Hecksum.ReferenceFactory :=
  {| Hecksum.Factory.hasher := "openssl_sha512";
     Hecksum.Factory.checksum_url := None;
     Hecksum.Factory.download_url := Some "https://codecov.io/bash";
     Hecksum.Factory.checksum := None;
     Hecksum.Factory.strategy := Hecksum.CodecovBashUploader |}.

(** A factory as the class [Transmission] of src/hecksum.py describes
    one. *)
Definition legacy_transmission : Hecksum.ReferenceFactory :=
  {| Hecksum.Factory.hasher := "openssl_sha256";
     Hecksum.Factory.checksum_url :=
       Some "https://transmissionbt.com/includes/js/constants.js";
     Hecksum.Factory.download_url := None;
     Hecksum.Factory.checksum := None;
     Hecksum.Factory.strategy :=
       Hecksum.Transmission "Transmission-{version}.dmg" "sha256_dmg"
                            "current_version_dmg" |}.




Definition foo_factory : References.ReferenceFactory :=
  References.transmission "Foo-{version}.dmg" "sha256_dmg" "current_version_dmg".

Definition sha_snippet : string := "sha256_dmg: " ++ dq ++ "deadbeef" ++ dq.
Definition version_snippet : string := "current_version_dmg: " ++ dq ++ "3.00" ++ dq.

(** The two constants on one line, as in a minified script. *)
Definition one_line : string :=
  "{" ++ sha_snippet ++ ", " ++ version_snippet ++ "}".

(** The two constants on lines of their own. *)
Definition two_lines : string :=
  "const constants = {" ++ nl ++ "  " ++ sha_snippet ++ "," ++ nl
  ++ "  " ++ version_snippet ++ "," ++ nl ++ "};" ++ nl.

Definition digest_a : string :=
  "0123456789abcdef0123456789abcdef0123456789abcdef0123456789abcdef".
Definition digest_b : string :=
  "fedcba9876543210fedcba9876543210fedcba9876543210fedcba9876543210".

Definition manifest_head : list string :=
  [digest_b ++ "  doppler_3.24.1_linux_amd64.deb"].
Definition manifest_line : string :=
  digest_a ++ "  doppler_3.24.1_linux_arm64.deb".
Definition manifest_tail : list string :=
  [digest_b ++ "  doppler_3.24.1_linux_arm64.rpm"; EmptyString].

Definition release_page : Response :=
  {| status_code := 200;
     url := "https://github.com/DopplerHQ/cli/releases/tag/3.24.1";
     text := "<html>9.9.9</html>"; content := [] |}.

Definition doppler_world : World :=
  fun _ u =>
    if String.eqb u References.latest_release then Ok release_page
    else Ok (page (Text.join_lines (manifest_head ++ manifest_line :: manifest_tail))).

Definition release_match : Re.Match :=
  {| Re.whole := "3.24.1"; Re.groups := [] |}.

Definition line_match : Re.Match :=
  {| Re.whole := manifest_line;
     Re.groups := [(2, "doppler_3.24.1_linux_arm64.deb"); (1, digest_a)] |}.


(** A response with a given status. *)
Definition answer (status : Z) (body : string) : Response :=
  {| status_code := status; url := "https://example.org/"; text := body;
     content := [] |}.

(** Every address answers with the same status. *)
Definition answering (status : Z) (body : string) : World :=
  fun _ _ => Ok (answer status body).


(** A redirect target without a release number. *)
Definition login_page : Response :=
  {| status_code := 200; url := "https://github.com/login";
     text := "3.24.1"; content := [] |}.


(** The uploader script and its manifest. *)
Definition uploader_script : string :=
  "#!/usr/bin/env bash" ++ nl ++ "VERSION=" ++ dq ++ "1.0.6" ++ dq ++ nl
  ++ "echo done" ++ nl.

Definition uploader_manifest : list string :=
  [digest_b ++ "  env"; digest_a ++ "  codecov"; EmptyString].

Definition uploader_world : World :=
  fun _ u =>
    if String.eqb u "https://codecov.io/bash" then Ok (page uploader_script)
    else Ok (page (Text.join_lines uploader_manifest)).

End Sample.

#[local] Arguments String.append s1 s2 : simpl nomatch.

(* ================================================================= *)
(** ** Facts about matching *)

Section ReFacts.
Import Text Re.

Lemma string_app_assoc (a b c : string) : (a ++ b) ++ c = a ++ (b ++ c).
Proof. induction a as [|x a IH]; simpl; [reflexivity | now rewrite IH]. Qed.

Lemma string_app_empty (a : string) : a ++ EmptyString = a.
Proof. induction a as [|x a IH]; simpl; [reflexivity | now rewrite IH]. Qed.

Lemma item_rejects_newline (i : item) :
  item_nl_free i = true -> item_matches i newline = false.
Proof.
  destruct i as [c| |]; simpl; intros H; try reflexivity.
  now apply negb_true_iff in H.
Qed.

Lemma atom_rejects_newline (a : atom) :
  atom_nl_free a = true -> atom_matches a newline = false.
Proof.
  destruct a as [c| |items]; simpl; intros H.
  - now apply negb_true_iff in H.
  - reflexivity.
  - induction items as [|i items IH]; simpl in *; [reflexivity|].
    apply andb_true_iff in H as [Hi Hrest].
    now rewrite (item_rejects_newline i Hi), IH.
Qed.

Lemma more_extend x c p : more x (extend c p) = extend c (more x p).
Proof. reflexivity. Qed.

Lemma star_run_local a x s :
  atom_matches a newline = false ->
  star_run a (s ++ String newline x)
  = List.map (more (String newline x)) (star_run a s).
Proof.
  intros Ha. induction s as [|c s IH]; simpl.
  - now rewrite Ha.
  - destruct (atom_matches a c); [|reflexivity].
    rewrite IH, List.map_app, !List.map_map. reflexivity.
Qed.

Lemma rep_run_local a x n : forall s,
  atom_matches a newline = false ->
  rep_run n a (s ++ String newline x)
  = List.map (more (String newline x)) (rep_run n a s).
Proof.
  induction n as [|n IH]; intros s Ha; simpl; [reflexivity|].
  destruct s as [|c s]; simpl.
  - now rewrite Ha.
  - destruct (atom_matches a c); [|reflexivity].
    rewrite IH, !List.map_map by assumption. reflexivity.
Qed.

Lemma with_caps_more caps x p :
  with_caps caps (more x p) = more_way x (with_caps caps p).
Proof. reflexivity. Qed.

Lemma flat_map_map {A B C} (f : B -> list C) (g : A -> B) (l : list A) :
  List.flat_map f (List.map g l) = List.flat_map (fun a => f (g a)) l.
Proof. induction l as [|a l IH]; simpl; [reflexivity | now rewrite IH]. Qed.

Lemma map_flat_map {A B C} (h : B -> C) (f : A -> list B) (l : list A) :
  List.map h (List.flat_map f l) = List.flat_map (fun a => List.map h (f a)) l.
Proof.
  induction l as [|a l IH]; simpl; [reflexivity|].
  now rewrite List.map_app, IH.
Qed.

Lemma flat_map_pointwise {A B} (f g : A -> list B) (l : list A) :
  (forall a, f a = g a) -> List.flat_map f l = List.flat_map g l.
Proof.
  intros H. induction l as [|a l IH]; simpl; [reflexivity | now rewrite H, IH].
Qed.

(** A pattern that cannot cross a line break matches at the start of a
    line the same way whatever follows the line. *)
Lemma run_local r x : nl_free r = true -> forall s caps,
  run r (s ++ String newline x) caps
  = List.map (more_way (String newline x)) (run r s caps).
Proof.
  induction r as [|a|a|a|n a|r1 IH1 r2 IH2|n r IH]; simpl; intros Hr s caps.
  - reflexivity.
  - apply atom_rejects_newline in Hr.
    destruct s as [|c s]; simpl; [now rewrite Hr|].
    now destruct (atom_matches a c).
  - apply atom_rejects_newline in Hr.
    rewrite star_run_local, !List.map_map by assumption. reflexivity.
  - apply atom_rejects_newline in Hr.
    destruct s as [|c s]; simpl; [now rewrite Hr|].
    destruct (atom_matches a c); [|reflexivity].
    rewrite star_run_local, !List.map_map by assumption. reflexivity.
  - apply atom_rejects_newline in Hr.
    rewrite rep_run_local, !List.map_map by assumption. reflexivity.
  - apply andb_true_iff in Hr as [H1 H2].
    rewrite IH1, flat_map_map, map_flat_map by assumption.
    apply flat_map_pointwise. intros [[c1 m1] s1]. simpl.
    rewrite IH2, !List.map_map by assumption.
    apply List.map_ext. now intros [[c2 m2] s2].
  - rewrite IH, !List.map_map by assumption.
    apply List.map_ext. now intros [[c m] rest].
Qed.

Lemma match_at_local r x s :
  nl_free r = true -> match_at r (s ++ String newline x) = match_at r s.
Proof.
  intros Hr. unfold match_at. rewrite run_local by assumption.
  destruct (run r s []) as [|[[c m] rest] ways]; reflexivity.
Qed.

(** Searching a text goes through its first line before anything else. *)
Lemma search_local r a b :
  nl_free r = true ->
  search r (a ++ String newline b)
  = match search r a with
    | Some m => Some m
    | None => search r b
    end.
Proof.
  intros Hr. induction a as [|c a IH].
  - change (EmptyString ++ String newline b) with (String newline b).
    cbn [search].
    rewrite <- (match_at_local r b EmptyString Hr).
    change (EmptyString ++ String newline b) with (String newline b).
    now destruct (match_at r (String newline b)).
  - change (String c a ++ String newline b) with (String c (a ++ String newline b)).
    cbn [search].
    rewrite <- (match_at_local r b (String c a) Hr).
    change (String c a ++ String newline b) with (String c (a ++ String newline b)).
    destruct (match_at r (String c (a ++ String newline b))); [reflexivity|].
    exact IH.
Qed.

Lemma join_lines_cons l l' ls :
  join_lines (l :: l' :: ls) = l ++ String newline (join_lines (l' :: ls)).
Proof. reflexivity. Qed.

Lemma search_first_line r l post m :
  nl_free r = true ->
  search r l = Some m ->
  search r (join_lines (l :: post)) = Some m.
Proof.
  intros Hr Hl. destruct post as [|l' post]; [exact Hl|].
  now rewrite join_lines_cons, search_local, Hl.
Qed.

(** In a text of lines, the search finds what it finds in the first line
    that has a match; the lines after it do not matter. *)
Lemma search_lines r pre l post m :
  nl_free r = true ->
  Forall (fun p => search r p = None) pre ->
  search r l = Some m ->
  search r (join_lines (pre ++ l :: post)) = Some m.
Proof.
  intros Hr Hpre Hl. induction Hpre as [|p pre Hp Hpre IH]; simpl.
  - now apply search_first_line.
  - destruct (pre ++ l :: post)%list as [|l' rest] eqn:E.
    + now destruct pre.
    + now rewrite join_lines_cons, search_local, Hp.
Qed.
End ReFacts.

(* ================================================================= *)
(** ** Literal prefixes and the quoted-constant pattern *)

Section Constants.
Import Text Re.

Lemma strip_prefix_app k s : strip_prefix k (k ++ s) = Some s.
Proof.
  induction k as [|c k IH]; simpl; [reflexivity|].
  now rewrite Ascii.eqb_refl.
Qed.

Lemma strip_prefix_split a b s :
  strip_prefix (a ++ b) s
  = match strip_prefix a s with
    | Some s' => strip_prefix b s'
    | None => None
    end.
Proof.
  revert s. induction a as [|c a IH]; intros s; simpl; [reflexivity|].
  destruct s as [|d s]; [reflexivity|].
  destruct (Ascii.eqb c d); [apply IH | reflexivity].
Qed.

Lemma after_empty (ways : list way) : List.map (after EmptyString) ways = ways.
Proof.
  rewrite <- (List.map_id ways) at 2.
  apply List.map_ext. now intros [[c m] rest].
Qed.

Lemma after_after a b (ways : list way) :
  List.map (after a) (List.map (after b) ways) = List.map (after (a ++ b)) ways.
Proof.
  rewrite List.map_map. apply List.map_ext. intros [[c m] rest].
  simpl. now rewrite string_app_assoc.
Qed.

(** A literal matches exactly when the input starts with it. *)
Lemma run_lits k : forall s caps,
  run (lits k) s caps
  = match strip_prefix k s with
    | Some s' => [(caps, k, s')]
    | None => []
    end.
Proof.
  induction k as [|c k IH]; intros s caps; [reflexivity|].
  cbn [lits run]. destruct s as [|d s]; [reflexivity|].
  cbn [atom_matches strip_prefix].
  destruct (Ascii.eqb_spec c d) as [->|_]; [|reflexivity].
  cbn [List.flat_map]. rewrite IH, List.app_nil_r.
  destruct (strip_prefix k s); reflexivity.
Qed.

Lemma run_cat_lits k r s caps :
  run (Cat (lits k) r) s caps
  = match strip_prefix k s with
    | Some s' => List.map (after k) (run r s' caps)
    | None => []
    end.
Proof.
  cbn [run]. rewrite run_lits.
  destruct (strip_prefix k s); [|reflexivity].
  cbn [List.flat_map]. now rewrite List.app_nil_r.
Qed.

Lemma run_cat_lit c r s caps :
  run (Cat (One (Lit c)) r) s caps
  = match strip_prefix (String c EmptyString) s with
    | Some s' => List.map (after (String c EmptyString)) (run r s' caps)
    | None => []
    end.
Proof.
  cbn [run]. destruct s as [|d s]; [reflexivity|].
  cbn [atom_matches strip_prefix].
  destruct (Ascii.eqb_spec c d) as [->|_]; [|reflexivity].
  cbn [List.flat_map]. now rewrite List.app_nil_r.
Qed.

(** A key without a dot is spliced into a pattern as a literal. *)
Lemma splice_lits key : contains "."%char key = false -> splice key = lits key.
Proof.
  induction key as [|c key IH]; cbn [contains splice]; intros H; [reflexivity|].
  apply orb_false_iff in H as [Hc Hk].
  rewrite Ascii.eqb_sym in Hc. now rewrite Hc, IH.
Qed.

Lemma constant_pattern_run key s caps :
  contains "."%char key = false ->
  run (Patterns.constant_pattern key) s caps
  = match strip_prefix (opening key) s with
    | Some s' => List.map (after (opening key)) (run quoted s' caps)
    | None => []
    end.
Proof.
  intros Hk. unfold Patterns.constant_pattern, cats, opening.
  cbn [List.fold_right]. rewrite (splice_lits key Hk), run_cat_lits.
  rewrite strip_prefix_split.
  destruct (strip_prefix key s) as [s1|]; [|reflexivity].
  rewrite run_cat_lits.
  change (": " ++ String quote EmptyString)
    with (String ":" (String " " EmptyString) ++ String quote EmptyString).
  rewrite strip_prefix_split.
  destruct (strip_prefix ": " s1) as [s2|]; [|reflexivity].
  rewrite run_cat_lit.
  destruct (strip_prefix (String quote EmptyString) s2) as [s3|]; [|reflexivity].
  now rewrite !after_after, string_app_assoc.
Qed.

(** After a run of characters taken from a line with no double quote, the
    input never continues with a double quote. *)
Lemma star_run_no_quote trail :
  contains quote (first_line trail) = false ->
  Forall (fun p => opens_with_quote p = false) (star_run Dot trail).
Proof.
  induction trail as [|c trail IH]; intros H.
  - repeat constructor.
  - cbn [first_line] in H. cbn [star_run atom_matches].
    destruct (Ascii.eqb c newline) eqn:Hc.
    + constructor; [|constructor].
      apply Ascii.eqb_eq in Hc. now subst c.
    + cbn [contains] in H. apply orb_false_iff in H as [Hq Hrest].
      cbn [negb]. apply List.Forall_app. split.
      * apply List.Forall_map. eapply List.Forall_impl; [|apply (IH Hrest)].
        now intros [m rest].
      * constructor; [|constructor].
        unfold opens_with_quote, startswith. cbn [snd strip_prefix].
        now rewrite Hq.
Qed.

Lemma star_run_value v s :
  contains newline v = false ->
  exists shorter,
    star_run Dot (v ++ s) = (List.map (prepend v) (star_run Dot s) ++ shorter)%list.
Proof.
  induction v as [|c v IH]; intros H.
  - exists []. rewrite List.app_nil_r. simpl.
    rewrite <- (List.map_id (star_run Dot s)) at 1.
    apply List.map_ext. now intros [m rest].
  - cbn [contains] in H. apply orb_false_iff in H as [Hc Hv].
    destruct (IH Hv) as [shorter Hs].
    exists (List.map (extend c) shorter ++ [(EmptyString, String c (v ++ s))])%list.
    change (String c v ++ s) with (String c (v ++ s)).
    cbn [star_run atom_matches]. rewrite Ascii.eqb_sym, Hc. cbn [negb].
    rewrite Hs, List.map_app, List.map_map, <- List.app_assoc. reflexivity.
Qed.

Lemma flat_map_nil {A B} (f : A -> list B) (l : list A) :
  Forall (fun a => f a = []) l -> List.flat_map f l = [].
Proof.
  induction 1 as [|a l Ha _ IH]; simpl; [reflexivity | now rewrite Ha, IH].
Qed.

Lemma run_quoted_unfold s caps :
  run quoted s caps = List.flat_map (close_quote caps) (star_run Dot s).
Proof.
  unfold quoted. cbn [run]. rewrite !flat_map_map.
  apply flat_map_pointwise. now intros [m rest].
Qed.

Lemma close_quote_dead caps p :
  opens_with_quote p = false -> close_quote caps p = [].
Proof.
  unfold opens_with_quote, startswith, close_quote. rewrite run_cat_lit.
  now destruct (strip_prefix (String quote EmptyString) (snd p)).
Qed.

(** The group takes the value up to the last double quote of the line:
    with no quote after the one that closes the value, that is the value. *)
Lemma run_quoted v trail caps :
  contains newline v = false ->
  contains quote (first_line trail) = false ->
  exists others,
    run quoted (v ++ String quote trail) caps
    = ((1, v) :: caps, v ++ String quote EmptyString, trail) :: others.
Proof.
  intros Hv Ht. rewrite run_quoted_unfold.
  destruct (star_run_value v (String quote trail) Hv) as [shorter ->].
  cbn [star_run atom_matches].
  replace (negb (Ascii.eqb quote newline)) with true by reflexivity.
  rewrite List.map_app, List.flat_map_app, List.flat_map_app.
  rewrite (flat_map_nil (close_quote caps)).
  - cbn [List.map List.flat_map List.app prepend fst snd].
    unfold close_quote at 1. rewrite run_cat_lit.
    unfold prepend. cbn [fst snd strip_prefix]. rewrite Ascii.eqb_refl.
    cbn [run List.map after List.app]. rewrite !string_app_empty.
    eexists. reflexivity.
  - rewrite !List.Forall_map.
    eapply List.Forall_impl; [|apply (star_run_no_quote trail Ht)].
    intros [m rest] H. now apply close_quote_dead.
Qed.

Lemma match_at_constant key v trail :
  contains "."%char key = false ->
  contains newline v = false ->
  contains quote (first_line trail) = false ->
  match_at (Patterns.constant_pattern key)
           (opening key ++ v ++ String quote trail)
  = Some {| whole := opening key ++ v ++ String quote EmptyString;
            groups := [(1, v)] |}.
Proof.
  intros Hk Hv Ht. unfold match_at.
  rewrite constant_pattern_run, strip_prefix_app by assumption.
  destruct (run_quoted v trail [] Hv Ht) as [others ->].
  reflexivity.
Qed.

Lemma match_at_constant_none key s :
  contains "."%char key = false ->
  startswith s (opening key) = false ->
  match_at (Patterns.constant_pattern key) s = None.
Proof.
  intros Hk Hs. unfold match_at, startswith in *.
  rewrite constant_pattern_run by assumption.
  now destruct (strip_prefix (opening key) s).
Qed.

Lemma search_skips r k pre rest :
  (forall s, startswith s k = false -> match_at r s = None) ->
  find k (pre ++ rest) = Some (String.length pre) ->
  search r (pre ++ rest) = search r rest.
Proof.
  intros Hr. induction pre as [|c pre IH]; intros Hf; [reflexivity|].
  change (String c pre ++ rest) with (String c (pre ++ rest)) in *.
  cbn [find String.length] in Hf.
  destruct (startswith (String c (pre ++ rest)) k) eqn:Hs; [discriminate|].
  cbn [search]. rewrite (Hr _ Hs). apply IH.
  destruct (find k (pre ++ rest)); simpl in Hf; congruence.
Qed.

(** Where the opening of a constant first occurs, followed by a value and
    a closing quote that is the last one of its line, the search for the
    constant's pattern finds that value. *)
Lemma search_constant key v pre trail :
  contains "."%char key = false ->
  contains newline v = false ->
  contains quote (first_line trail) = false ->
  find (opening key) (pre ++ opening key ++ v ++ String quote trail)
  = Some (String.length pre) ->
  search (Patterns.constant_pattern key)
         (pre ++ opening key ++ v ++ String quote trail)
  = Some {| whole := opening key ++ v ++ String quote EmptyString;
            groups := [(1, v)] |}.
Proof.
  intros Hk Hv Ht Hf.
  rewrite (search_skips _ (opening key) pre _
             (fun s => match_at_constant_none key s Hk) Hf).
  pose proof (match_at_constant key v trail Hk Hv Ht) as Hm.
  destruct (opening key ++ v ++ String quote trail); cbn [search]; now rewrite Hm.
Qed.
End Constants.

(* ================================================================= *)
(** ** The text a line-bound pattern consumes *)

Section Consumed.
Import Text Re.

Lemma contains_app c a b : contains c (a ++ b) = contains c a || contains c b.
Proof.
  induction a as [|d a IH]; cbn [String.append contains]; [reflexivity|].
  now rewrite IH, orb_assoc.
Qed.

Lemma matched_not_newline a c :
  atom_matches a newline = false -> atom_matches a c = true ->
  Ascii.eqb newline c = false.
Proof.
  intros Hn Hc. destruct (Ascii.eqb_spec newline c) as [<-|]; congruence.
Qed.

Lemma star_run_line_bound a s :
  atom_matches a newline = false -> Forall line_bound (star_run a s).
Proof.
  intros Ha. induction s as [|c s IH]; cbn [star_run].
  - repeat constructor.
  - destruct (atom_matches a c) eqn:Hc; [|repeat constructor].
    apply List.Forall_app. split; [|repeat constructor].
    apply List.Forall_map. eapply List.Forall_impl; [|exact IH].
    intros [m rest] H. unfold line_bound in *. cbn [extend fst contains].
    now rewrite (matched_not_newline a c Ha Hc).
Qed.

Lemma rep_run_line_bound a n : forall s,
  atom_matches a newline = false -> Forall line_bound (rep_run n a s).
Proof.
  induction n as [|n IH]; intros s Ha; cbn [rep_run]; [repeat constructor|].
  destruct s as [|c s]; [constructor|].
  destruct (atom_matches a c) eqn:Hc; [|constructor].
  apply List.Forall_map. eapply List.Forall_impl; [|exact (IH s Ha)].
  intros [m rest] H. unfold line_bound in *. cbn [extend fst contains].
  now rewrite (matched_not_newline a c Ha Hc).
Qed.

Lemma with_caps_line_bound caps (ps : list (string * string)) :
  Forall line_bound ps -> Forall line_bound_way (List.map (with_caps caps) ps).
Proof.
  intros H. apply List.Forall_map. eapply List.Forall_impl; [|exact H].
  now intros [m rest].
Qed.

(** What a pattern that cannot cross a line break consumes has no line
    break in it. *)
Lemma run_line_bound r : nl_free r = true -> forall s caps,
  Forall line_bound_way (run r s caps).
Proof.
  induction r as [|a|a|a|n a|r1 IH1 r2 IH2|n r IH]; cbn [nl_free run];
    intros Hr s caps.
  - repeat constructor.
  - apply atom_rejects_newline in Hr.
    destruct s as [|c s]; [constructor|].
    destruct (atom_matches a c) eqn:Hc; [|constructor].
    constructor; [|constructor]. unfold line_bound_way. cbn [fst snd contains].
    now rewrite (matched_not_newline a c Hr Hc).
  - apply atom_rejects_newline in Hr.
    now apply with_caps_line_bound, star_run_line_bound.
  - apply atom_rejects_newline in Hr.
    destruct s as [|c s]; [constructor|].
    destruct (atom_matches a c) eqn:Hc; [|constructor].
    apply with_caps_line_bound, List.Forall_map.
    eapply List.Forall_impl; [|exact (star_run_line_bound a s Hr)].
    intros [m rest] H. unfold line_bound in *. cbn [extend fst contains].
    now rewrite (matched_not_newline a c Hr Hc).
  - apply atom_rejects_newline in Hr.
    now apply with_caps_line_bound, rep_run_line_bound.
  - apply andb_true_iff in Hr as [H1 H2].
    apply List.Forall_flat_map.
    eapply List.Forall_impl; [|exact (IH1 H1 s caps)].
    intros [[c1 m1] s1] Hm1. apply List.Forall_map.
    eapply List.Forall_impl; [|exact (IH2 H2 s1 c1)].
    intros [[c2 m2] s2] Hm2. unfold line_bound_way in *.
    cbn [after fst snd] in *. now rewrite contains_app, Hm1, Hm2.
  - apply List.Forall_map.
    eapply List.Forall_impl; [|exact (IH Hr s caps)].
    now intros [[c m] rest].
Qed.

Lemma match_at_line_bound r s m :
  nl_free r = true -> match_at r s = Some m -> contains newline (whole m) = false.
Proof.
  intros Hr. unfold match_at.
  pose proof (run_line_bound r Hr s []) as H.
  destruct (run r s []) as [|[[c t] rest] ways]; [discriminate|].
  intros [= <-]. now inversion H.
Qed.

Lemma search_line_bound r s m :
  nl_free r = true -> search r s = Some m -> contains newline (whole m) = false.
Proof.
  intros Hr. induction s as [|c s IH]; cbn [search].
  - destruct (match_at r EmptyString) eqn:E; [|discriminate].
    intros [= <-]. eauto using match_at_line_bound.
  - destruct (match_at r (String c s)) eqn:E; [|exact IH].
    intros [= <-]. eauto using match_at_line_bound.
Qed.

Lemma splice_nl_free s : contains newline s = false -> nl_free (splice s) = true.
Proof.
  induction s as [|c s IH]; cbn [contains splice nl_free]; intros H; [reflexivity|].
  apply orb_false_iff in H as [Hc Hs]. rewrite (IH Hs), andb_true_r.
  destruct (Ascii.eqb c "."); [reflexivity|].
  cbn [atom_nl_free]. now rewrite Ascii.eqb_sym, Hc.
Qed.

Lemma plain_no_newline s : plain s = true -> contains newline s = false.
Proof.
  induction s as [|c s IH]; cbn [plain contains]; intros H; [reflexivity|].
  apply andb_true_iff in H as [H Hs]. apply andb_true_iff in H as [_ Hc].
  apply negb_true_iff in Hc. now rewrite Ascii.eqb_sym, Hc, (IH Hs).
Qed.

Lemma release_pattern_nl_free : nl_free References.release_pattern = true.
Proof. reflexivity. Qed.

Lemma doppler_pattern_nl_free version architecture :
  contains newline version = false ->
  plain architecture = true ->
  nl_free (References.doppler_pattern version architecture) = true.
Proof.
  intros Hv Ha. unfold References.doppler_pattern, cats.
  cbn [List.fold_right nl_free].
  rewrite (splice_nl_free version Hv).
  rewrite (splice_nl_free architecture (plain_no_newline _ Ha)).
  reflexivity.
Qed.
End Consumed.

(* ================================================================= *)
(** ** The groups of a match *)

Section Groups.
Import Text Re.

Lemma lits_defines s n : defines (lits s) n = false.
Proof. induction s; simpl; auto. Qed.

Lemma splice_defines s n : defines (splice s) n = false.
Proof. induction s; simpl; auto. Qed.

(** Matching a pattern leaves the groups it does not define as they
    were. *)
Lemma run_keeps_group n r : defines r n = false -> forall s caps,
  Forall (fun w : way => lookup_group n (fst (fst w)) = lookup_group n caps)
         (run r s caps).
Proof.
  induction r as [|a|a|a|k a|r1 IH1 r2 IH2|k r IH]; cbn [defines run];
    intros Hd s caps.
  - repeat constructor.
  - destruct s as [|c s]; [constructor|].
    destruct (atom_matches a c); repeat constructor.
  - apply List.Forall_map, List.Forall_forall. now intros [m rest] _.
  - destruct s as [|c s]; [constructor|].
    destruct (atom_matches a c); [|constructor].
    rewrite List.map_map. apply List.Forall_map, List.Forall_forall.
    now intros [m rest] _.
  - apply List.Forall_map, List.Forall_forall. now intros [m rest] _.
  - apply orb_false_iff in Hd as [H1 H2].
    apply List.Forall_flat_map.
    eapply List.Forall_impl; [|exact (IH1 H1 s caps)].
    intros [[c1 m1] s1] Hc1. cbn [fst] in Hc1.
    apply List.Forall_map.
    eapply List.Forall_impl; [|exact (IH2 H2 s1 c1)].
    intros [[c2 m2] s2] Hc2. cbn [after fst] in *. congruence.
  - apply orb_false_iff in Hd as [Hk Hr].
    apply List.Forall_map.
    eapply List.Forall_impl; [|exact (IH Hr s caps)].
    intros [[c m] rest] Hc. cbn [capture fst lookup_group] in *.
    now rewrite Hk.
Qed.

(** A counted repetition consumes characters the atom matches. *)
Lemma rep_run_chars a n : forall s,
  Forall (fun p => all_chars (atom_matches a) (fst p) = true) (rep_run n a s).
Proof.
  induction n as [|n IH]; intros s; cbn [rep_run]; [repeat constructor|].
  destruct s as [|c s]; [constructor|].
  destruct (atom_matches a c) eqn:Hc; [|constructor].
  apply List.Forall_map. eapply List.Forall_impl; [|exact (IH s)].
  intros [m rest] H. cbn [extend fst all_chars] in *. now rewrite Hc.
Qed.

Lemma search_found r s m :
  search r s = Some m -> exists s', match_at r s' = Some m.
Proof.
  induction s as [|c s IH]; cbn [search].
  - destruct (match_at r EmptyString) eqn:E; [|discriminate].
    intros [= <-]. eauto.
  - destruct (match_at r (String c s)) eqn:E; [|exact IH].
    intros [= <-]. eauto.
Qed.

(** Group 1 of a match of a pattern that opens with it. *)
Lemma leading_group a k rest s m :
  defines rest 1 = false ->
  match_at (Cat (Group 1 (Rep k a)) rest) s = Some m ->
  exists c, group m 1 = Some c /\ all_chars (atom_matches a) c = true.
Proof.
  intros Hrest. unfold match_at. cbn [run]. rewrite !flat_map_map.
  pose proof (rep_run_chars a k s) as Hchars.
  induction Hchars as [|[c s1] ps Hc _ IH]; cbn [List.flat_map]; [discriminate|].
  cbn [with_caps capture fst snd].
  pose proof (run_keeps_group 1 rest Hrest s1 [(1, c)]) as Hkeep.
  destruct (run rest s1 [(1, c)]) as [|[[c2 m2] s2] ways]; [exact IH|].
  cbn [List.map after List.app]. intros [= <-].
  exists c. split; [|exact Hc].
  apply List.Forall_inv in Hkeep. exact Hkeep.
Qed.

Lemma checksum_char_not_space c : checksum_char c = true -> is_space c = false.
Proof.
  destruct c as [[] [] [] [] [] [] [] []]; vm_compute; congruence.
Qed.

Lemma lstrip_fixed s :
  all_chars (fun c => negb (is_space c)) s = true -> lstrip s = s.
Proof.
  destruct s as [|c s]; cbn [all_chars lstrip]; [reflexivity|].
  intros H. apply andb_true_iff in H as [Hc _].
  apply negb_true_iff in Hc. now rewrite Hc.
Qed.

Lemma rstrip_fixed s :
  all_chars (fun c => negb (is_space c)) s = true -> rstrip s = s.
Proof.
  induction s as [|c s IH]; cbn [all_chars rstrip]; [reflexivity|].
  intros H. apply andb_true_iff in H as [Hc Hs].
  apply negb_true_iff in Hc. rewrite (IH Hs), Hc. now destruct s.
Qed.

(** Stripping leaves a text without whitespace as it is. *)
Lemma strip_fixed s :
  all_chars (fun c => negb (is_space c)) s = true -> strip s = s.
Proof.
  intros H. unfold strip. now rewrite (lstrip_fixed s H), (rstrip_fixed s H).
Qed.

Lemma all_chars_impl (p q : ascii -> bool) s :
  (forall c, p c = true -> q c = true) ->
  all_chars p s = true -> all_chars q s = true.
Proof.
  intros Hpq. induction s as [|c s IH]; cbn [all_chars]; [reflexivity|].
  intros H. apply andb_true_iff in H as [Hc Hs].
  now rewrite (Hpq c Hc), (IH Hs).
Qed.

(** The checksum a manifest line gives is stored as it is. *)
Lemma doppler_checksum_kept version architecture s m :
  search (References.doppler_pattern version architecture) s = Some m ->
  option_map strip (group m 1) = group m 1.
Proof.
  intros H. apply search_found in H as [s' H].
  unfold References.doppler_pattern, cats in H. cbn [List.fold_right] in H.
  apply leading_group in H as [c [Hg Hc]].
  - rewrite Hg. cbn [option_map]. f_equal. apply strip_fixed.
    revert Hc. apply all_chars_impl. intros ch Hch.
    apply negb_true_iff. now apply checksum_char_not_space.
  - cbn [defines Nat.eqb orb]. now rewrite lits_defines, !splice_defines.
Qed.
End Groups.

(* ================================================================= *)
(** ** What the steps of a populate run leave alone *)

Section Frames.
Context {F R : Type}.
Local Abbreviation keeps_self := (keeps_self (F := F) (R := R)).
Local Abbreviation timeless := (timeless (F := F) (R := R)).

Lemma keeps_self_ret {A} (a : A) : keeps_self (ret a).
Proof. now intros st. Qed.

Lemma keeps_self_raise {A} e : keeps_self (raise (A := A) e).
Proof. now intros st. Qed.

Lemma keeps_self_lift {A} (r : result A) : keeps_self (lift r).
Proof. now intros st. Qed.

Lemma keeps_self_bind {A B} (m : M (Store F R) A) (k : A -> M (Store F R) B) :
  keeps_self m -> (forall a, keeps_self (k a)) -> keeps_self (bind m k).
Proof.
  intros Hm Hk st. unfold bind. specialize (Hm st).
  destruct (m st) as [[a|e] st']; simpl in *; [|exact Hm].
  now rewrite Hk.
Qed.

Lemma keeps_self_requests_get w u : keeps_self (requests_get w u).
Proof.
  intros st. unfold requests_get. now destruct (http_get w u (clock st)).
Qed.

Lemma keeps_self_get_raised w u : keeps_self (get_raised w u).
Proof.
  unfold get_raised. apply keeps_self_bind; [apply keeps_self_requests_get|].
  intros r. apply keeps_self_bind; [apply keeps_self_lift|].
  intros _. apply keeps_self_ret.
Qed.

Lemma keeps_self_try_pass (m : M (Store F R) unit) handled :
  keeps_self m -> keeps_self (try_pass m handled).
Proof.
  intros Hm st. unfold try_pass. specialize (Hm st).
  destruct (m st) as [[[]|e] st']; simpl in *; [exact Hm|].
  now destruct (handled e).
Qed.

Lemma timeless_ret {A} (a : A) : timeless (ret a).
Proof. now intros s1 s2 H. Qed.

Lemma timeless_raise {A} e : timeless (raise (A := A) e).
Proof. now intros s1 s2 H. Qed.

Lemma timeless_lift {A} (r : result A) : timeless (lift r).
Proof. now intros s1 s2 H. Qed.

Lemma timeless_bind {A B} (m : M (Store F R) A) (k : A -> M (Store F R) B) :
  timeless m -> (forall a, timeless (k a)) -> timeless (bind m k).
Proof.
  intros Hm Hk s1 s2 H. unfold bind. destruct (Hm s1 s2 H) as [Hr Hs].
  destruct (m s1) as [r1 s1'], (m s2) as [r2 s2']. simpl in *. subst r2.
  destruct r1 as [a|e]; [now apply Hk | now split].
Qed.

Lemma timeless_requests_get w u : steady w -> timeless (requests_get w u).
Proof.
  intros Hw s1 s2 [Hself Href]. unfold requests_get, http_get.
  destruct u as [u|]; simpl.
  - now rewrite (Hw (clock s1) (clock s2) u).
  - now split.
Qed.

Lemma timeless_get_raised w u : steady w -> timeless (get_raised w u).
Proof.
  intros Hw. unfold get_raised.
  apply timeless_bind; [now apply timeless_requests_get|].
  intros r. apply timeless_bind; [apply timeless_lift|].
  intros _. apply timeless_ret.
Qed.

Lemma timeless_try_pass (m : M (Store F R) unit) handled :
  timeless m -> timeless (try_pass m handled).
Proof.
  intros Hm s1 s2 H. unfold try_pass. destruct (Hm s1 s2 H) as [Hr Hs].
  destruct (m s1) as [r1 s1'], (m s2) as [r2 s2']. simpl in *. subst r2.
  destruct r1 as [[]|e]; [now split|].
  now destruct (handled e).
Qed.

(** Reading the Reference, and writing to it. *)
Lemma keeps_self_read {A} (f : R -> result A) :
  keeps_self (fun st => (f (ref_ st), st)).
Proof. now intros st. Qed.

Lemma timeless_read {A} (f : R -> result A) :
  timeless (fun st => (f (ref_ st), st)).
Proof. intros s1 s2 [Hself Href]. simpl. now rewrite Href. Qed.

Lemma keeps_self_write (f : R -> R) :
  keeps_self (fun st => (Ok tt, {| self_ := self_ st; ref_ := f (ref_ st);
                                   clock := clock st |})).
Proof. now intros st. Qed.

Lemma timeless_write (f : R -> R) :
  timeless (fun st => (Ok tt, {| self_ := self_ st; ref_ := f (ref_ st);
                                 clock := clock st |})).
Proof.
  intros s1 s2 [Hself Href]. simpl. split; [reflexivity|].
  split; simpl; congruence.
Qed.
End Frames.

Create HintDb frame.
#[local] Hint Resolve keeps_self_ret keeps_self_raise keeps_self_lift
  keeps_self_requests_get keeps_self_get_raised keeps_self_try_pass
  keeps_self_read keeps_self_write : frame.
#[local] Hint Resolve timeless_ret timeless_raise timeless_lift
  timeless_requests_get timeless_get_raised timeless_try_pass
  timeless_read timeless_write : frame.

(** Walks down a chain of binds, closing each step from the hints. *)
Ltac frame_steps :=
  cbv zeta;
  repeat first
    [ apply keeps_self_bind; [solve [eauto with frame] | intros ?]
    | apply timeless_bind; [solve [eauto with frame] | intros ?] ];
  cbv zeta;
  eauto with frame.

Section HecksumFrames.
Import Hecksum.
Variable w : World.
Variable beyond : string -> string -> result string.

Lemma hk_keeps_read {A} (f : Reference -> A) : keeps_self (read_ref f).
Proof. now intros st. Qed.

Lemma hk_keeps_update f : keeps_self (update_ref f).
Proof. now intros st. Qed.

Lemma hk_timeless_read {A} (f : Reference -> A) : timeless (read_ref f).
Proof. intros s1 s2 [Hs Hr]. unfold read_ref. simpl. now rewrite Hr. Qed.

Lemma hk_timeless_update f : timeless (update_ref f).
Proof. apply timeless_write. Qed.

Lemma hk_keeps_attr name : keeps_self (read_attr name).
Proof. now intros st. Qed.

Lemma hk_timeless_attr name : timeless (read_attr name).
Proof. intros s1 s2 [Hs Hr]. unfold read_attr. simpl. now rewrite Hr. Qed.

Hint Resolve hk_keeps_read hk_keeps_update hk_timeless_read hk_timeless_update
  hk_keeps_attr hk_timeless_attr : frame.
Hint Unfold set_checksum set_checksum_url set_download_url : frame.

Lemma hk_populate_keeps_self : keeps_self (_populate w beyond).
Proof.
  assert (keeps_self (populate_generic w))
    by (unfold populate_generic; frame_steps).
  assert (keeps_self (populate_codecov w))
    by (unfold populate_codecov; frame_steps).
  assert (keeps_self (populate_transmission w beyond))
    by (unfold populate_transmission; frame_steps).
  intros st. unfold _populate. now destruct (Factory.strategy (self_ st)).
Qed.

Lemma hk_populate_timeless : steady w -> timeless (_populate w beyond).
Proof.
  intros Hw.
  assert (timeless (populate_generic w))
    by (unfold populate_generic; frame_steps).
  assert (timeless (populate_codecov w))
    by (unfold populate_codecov; frame_steps).
  assert (timeless (populate_transmission w beyond))
    by (unfold populate_transmission; frame_steps).
  intros s1 s2 Hs. unfold _populate.
  destruct Hs as [Hself Href] eqn:E. rewrite <- Hself.
  destruct (Factory.strategy (self_ s1)); auto.
Qed.
End HecksumFrames.

Section ReferencesFrames.
Import References.
Variable HttpUrl : string -> option string.
Variable w : World.
Variable beyond : string -> string -> result string.

Lemma rf_keeps_read {A} (f : Reference -> A) : keeps_self (read_ref f).
Proof. now intros st. Qed.

Lemma rf_keeps_update f : keeps_self (update_ref f).
Proof. now intros st. Qed.

Lemma rf_timeless_read {A} (f : Reference -> A) : timeless (read_ref f).
Proof. intros s1 s2 [Hs Hr]. unfold read_ref. simpl. now rewrite Hr. Qed.

Lemma rf_timeless_update f : timeless (update_ref f).
Proof. apply timeless_write. Qed.

Hint Resolve rf_keeps_read rf_keeps_update rf_timeless_read rf_timeless_update
  : frame.

Lemma rf_keeps_set_checksum v : keeps_self (set_checksum v).
Proof. apply rf_keeps_update. Qed.

Lemma rf_keeps_set_checksum_url v : keeps_self (set_checksum_url HttpUrl v).
Proof. unfold set_checksum_url. frame_steps. Qed.

Lemma rf_keeps_set_download_url v : keeps_self (set_download_url HttpUrl v).
Proof. unfold set_download_url. frame_steps. Qed.

Lemma rf_timeless_set_checksum v : timeless (set_checksum v).
Proof. apply rf_timeless_update. Qed.

Lemma rf_timeless_set_checksum_url v : timeless (set_checksum_url HttpUrl v).
Proof. unfold set_checksum_url. frame_steps. Qed.

Lemma rf_timeless_set_download_url v : timeless (set_download_url HttpUrl v).
Proof. unfold set_download_url. frame_steps. Qed.

Hint Resolve rf_keeps_set_checksum rf_keeps_set_checksum_url
  rf_keeps_set_download_url rf_timeless_set_checksum
  rf_timeless_set_checksum_url rf_timeless_set_download_url : frame.

Lemma rf_populate_keeps_self : keeps_self (_populate HttpUrl w beyond).
Proof.
  assert (keeps_self (populate_generic w))
    by (unfold populate_generic, get_raised; frame_steps).
  assert (keeps_self (populate_codecov HttpUrl w))
    by (unfold populate_codecov, get_raised; frame_steps).
  assert (forall a b c, keeps_self (populate_transmission HttpUrl w beyond a b c))
    by (intros; unfold populate_transmission, get_raised; frame_steps).
  assert (forall a, keeps_self (populate_doppler HttpUrl w a))
    by (intros; unfold populate_doppler, get_raised; frame_steps).
  intros st. unfold _populate.
  destruct (Factory.strategy (self_ st)); unfold keeps_self in *; auto.
Qed.

Lemma rf_populate_timeless : steady w -> timeless (_populate HttpUrl w beyond).
Proof.
  intros Hw.
  assert (timeless (populate_generic w))
    by (unfold populate_generic, get_raised; frame_steps).
  assert (timeless (populate_codecov HttpUrl w))
    by (unfold populate_codecov, get_raised; frame_steps).
  assert (forall a b c, timeless (populate_transmission HttpUrl w beyond a b c))
    by (intros; unfold populate_transmission, get_raised; frame_steps).
  assert (forall a, timeless (populate_doppler HttpUrl w a))
    by (intros; unfold populate_doppler, get_raised; frame_steps).
  intros s1 s2 Hs. unfold _populate.
  destruct Hs as [Hself Href] eqn:E. rewrite <- Hself.
  destruct (Factory.strategy (self_ s1)); unfold timeless in *; auto.
Qed.
End ReferencesFrames.

(* ================================================================= *)
(** ** What a computation can raise *)

Section Raises.
Context {S : Type}.

Lemma raises_ret {A} (a : A) : raises_exceptions (ret (S := S) a).
Proof. intros st e st'. discriminate. Qed.

Lemma raises_lift {A} (r : result A) :
  fails_with_exception r -> raises_exceptions (lift (S := S) r).
Proof. intros Hr st e st' [= H _]. now apply Hr. Qed.

Lemma raises_bind {A B} (m : M S A) (k : A -> M S B) :
  raises_exceptions m -> (forall a, raises_exceptions (k a)) ->
  raises_exceptions (bind m k).
Proof.
  intros Hm Hk st e st'. unfold bind.
  destruct (m st) as [[a|e'] st''] eqn:E.
  - apply Hk.
  - intros [= <- <-]. eapply Hm, E.
Qed.

End Raises.

Lemma fails_group_of m n : fails_with_exception (group_of m n).
Proof. intros e. destruct m; simpl; [discriminate | now intros [= <-]]. Qed.

Lemma fails_item_of m n : fails_with_exception (item_of m n).
Proof. intros e. destruct m; simpl; [discriminate | now intros [= <-]]. Qed.

Lemma fails_raise_for_status r : fails_with_exception (raise_for_status r).
Proof.
  intros e. unfold raise_for_status.
  destruct (_ && _); [now intros [= <-] | discriminate].
Qed.

Lemma raises_http_get w u : benign w -> raises_exceptions (http_get w u).
Proof.
  intros Hw t e t'. unfold http_get. destruct u as [u|].
  - intros [= H _]. eapply Hw, H.
  - now intros [= <- _].
Qed.

Lemma raises_requests_get {F R} w u :
  benign w -> raises_exceptions (requests_get (F := F) (R := R) w u).
Proof.
  intros Hw st e st'. unfold requests_get.
  destruct (http_get w u (clock st)) as [r t] eqn:E. intros [= -> _].
  eapply raises_http_get; eauto.
Qed.

Create HintDb raises.
#[local] Hint Resolve raises_ret raises_lift fails_group_of fails_item_of
  fails_raise_for_status raises_requests_get : raises.

Ltac raises_steps :=
  cbv zeta;
  repeat (apply raises_bind; [solve [eauto with raises] | intros ?]);
  cbv zeta;
  eauto with raises.

Lemma raises_get_raised {F R} w u :
  benign w -> raises_exceptions (get_raised (F := F) (R := R) w u).
Proof. intros Hw. unfold get_raised. raises_steps. Qed.

#[local] Hint Resolve raises_get_raised : raises.

Section HecksumRaises.
Import Hecksum.
Variable w : World.
Variable beyond : string -> string -> result string.
Hypothesis Hw : benign w.

Lemma hk_raises_read {A} (f : Reference -> A) : raises_exceptions (read_ref f).
Proof. intros st e st'. discriminate. Qed.

Lemma hk_raises_update f : raises_exceptions (update_ref f).
Proof. intros st e st'. discriminate. Qed.

Lemma hk_raises_attr name : raises_exceptions (read_attr name).
Proof.
  intros st e st'. unfold read_attr, getattr.
  repeat match goal with
         | |- context [if ?b then _ else _] => destruct b
         end; try discriminate.
  now intros [= <- _].
Qed.

Hint Resolve hk_raises_read hk_raises_update hk_raises_attr : raises.
Hint Unfold set_checksum set_checksum_url set_download_url : raises.


End HecksumRaises.

(* ================================================================= *)
(** ** make() and the exceptions of the populate step *)

(** C1. Whatever the factory, when the populate step raises an exception of
    the ignorable kinds, [make] returns the Reference in the state
    population left it in; an exception of any other kind leaves [make].
    In src/hecksum/references.py the ignorable kinds are
    [IGNORED_EXCEPTIONS]; in src/hecksum.py they are all of [Exception]. *)
Theorem make_swallows_ignorable
  (IGNORED_EXCEPTIONS : exn -> bool) (HttpUrl : string -> option string)
  (w : World) (beyond : string -> string -> result string) (t : nat)
  (self : References.ReferenceFactory) (ref0 : References.Reference)
  (e : exn) (st : References.State)
  (self' : Hecksum.ReferenceFactory) (e' : exn) (st' : Hecksum.State) :
  References.Reference_of HttpUrl self = Ok ref0 ->
  References._populate HttpUrl w beyond {| self_ := self; ref_ := ref0; clock := t |}
  = (Raise e, st) ->
  Hecksum._populate w beyond {| self_ := self'; ref_ := Hecksum.new_Reference self';
                                clock := t |}
  = (Raise e', st') ->
  References.make IGNORED_EXCEPTIONS HttpUrl w beyond self t
  = (if IGNORED_EXCEPTIONS e then Ok (ref_ st) else Raise e, self_ st, clock st)
  /\ Hecksum.make w beyond self' t
     = (if is_Exception e' then Ok (ref_ st') else Raise e', self_ st', clock st').
Proof.
  intros Hnew Hpop Hpop'. split.
  - unfold References.make, try_pass. rewrite Hnew, Hpop.
    now destruct (IGNORED_EXCEPTIONS e).
  - unfold Hecksum.make, try_pass. rewrite Hpop'.
    now destruct (is_Exception e').
Qed.

Lemma make_swallows_ignorable_witness :
  References.make Sample.ignorable Sample.accept_http Sample.offline
                  Sample.beyond References.test_failure 0
  = (Ok {| References.algorithm := "sha512";
           References.checksum_url := Some "https://hecksum.com/failureSHA512.txt";
           References.download_url := Some "https://hecksum.com/failure.txt";
           References.checksum := None |},
     References.test_failure, 1)
  /\ Hecksum.make Sample.offline Sample.beyond Hecksum.test_failure 0
     = (Ok (Hecksum.new_Reference Hecksum.test_failure), Hecksum.test_failure, 1).
Proof.
  apply (make_swallows_ignorable Sample.ignorable Sample.accept_http
           Sample.offline Sample.beyond 0 References.test_failure
           {| References.algorithm := "sha512";
              References.checksum_url := Some "https://hecksum.com/failureSHA512.txt";
              References.download_url := Some "https://hecksum.com/failure.txt";
              References.checksum := None |}
           ConnectionError
           {| self_ := References.test_failure;
              ref_ := {| References.algorithm := "sha512";
                         References.checksum_url :=
                           Some "https://hecksum.com/failureSHA512.txt";
                         References.download_url :=
                           Some "https://hecksum.com/failure.txt";
                         References.checksum := None |};
              clock := 1 |}
           Hecksum.test_failure ConnectionError
           {| self_ := Hecksum.test_failure;
              ref_ := Hecksum.new_Reference Hecksum.test_failure;
              clock := 1 |}); reflexivity.
Defined.

(* ================================================================= *)
(** ** Check.create in src/hecksum.py *)







(* ================================================================= *)
(** ** The generic factory *)

Lemma raise_for_status_success (r : Response) :
  (200 <= status_code r < 300)%Z -> raise_for_status r = Ok tt.
Proof.
  intros H. unfold raise_for_status.
  replace (400 <=? status_code r)%Z with false by (symmetry; apply Z.leb_gt; lia).
  reflexivity.
Qed.

(** A request that is answered with a success status. *)
Lemma get_raised_success {F R} (w : World) (u : string) (r : Response)
  (st : Store F R) :
  w (clock st) u = Ok r ->
  (200 <= status_code r < 300)%Z ->
  get_raised w (Some u) st
  = (Ok r, {| self_ := self_ st; ref_ := ref_ st; clock := S (clock st) |}).
Proof.
  intros Hw Hs. unfold get_raised, bind, requests_get, http_get, lift, ret.
  rewrite Hw. cbn [self_ ref_ clock]. now rewrite (raise_for_status_success r Hs).
Qed.

Section Trimming.
Import Text.

Lemma lstrip_spaces lead s :
  all_chars is_space lead = true -> lstrip (lead ++ s) = lstrip s.
Proof.
  induction lead as [|c lead IH]; intros H; [reflexivity|].
  cbn [all_chars] in H. apply andb_true_iff in H as [Hc Hlead].
  change (String c lead ++ s) with (String c (lead ++ s)).
  cbn [lstrip]. rewrite Hc. now apply IH.
Qed.

Lemma rstrip_all_spaces trail :
  all_chars is_space trail = true -> rstrip trail = EmptyString.
Proof.
  induction trail as [|c trail IH]; intros H; [reflexivity|].
  cbn [all_chars] in H. apply andb_true_iff in H as [Hc Htrail].
  cbn [rstrip]. now rewrite (IH Htrail), Hc.
Qed.

Lemma rstrip_spaces s trail :
  all_chars is_space trail = true -> rstrip (s ++ trail) = rstrip s.
Proof.
  intros H. induction s as [|c s IH].
  - now apply rstrip_all_spaces.
  - change (String c s ++ trail) with (String c (s ++ trail)).
    cbn [rstrip]. now rewrite IH.
Qed.

Lemma rstrip_bare s : forall c,
  is_space (last_char s c) = false -> rstrip (String c s) = String c s.
Proof.
  induction s as [|d s IH]; intros c H.
  - cbn [last_char] in H. cbn [rstrip]. now rewrite H.
  - cbn [last_char] in H. specialize (IH d H).
    change (rstrip (String c (String d s)))
      with (match rstrip (String d s) with
            | EmptyString => if is_space c then EmptyString else String c EmptyString
            | t => String c t
            end).
    now rewrite IH.
Qed.

(** Stripping removes the whitespace around a text and nothing else. *)
Lemma strip_trims lead core trail :
  all_chars is_space lead = true ->
  all_chars is_space trail = true ->
  bare core = true ->
  strip (lead ++ core ++ trail) = core.
Proof.
  intros Hlead Htrail Hcore. unfold strip. rewrite (lstrip_spaces lead _ Hlead).
  destruct core as [|c core].
  - change (EmptyString ++ trail) with trail.
    rewrite <- (string_app_empty trail) at 1.
    rewrite (lstrip_spaces trail EmptyString Htrail). reflexivity.
  - cbn [bare] in Hcore. apply andb_true_iff in Hcore as [Hc Hlast].
    apply negb_true_iff in Hc. apply negb_true_iff in Hlast.
    change (String c core ++ trail) with (String c (core ++ trail)).
    cbn [lstrip]. rewrite Hc.
    change (String c (core ++ trail)) with (String c core ++ trail).
    rewrite (rstrip_spaces _ trail Htrail). now apply rstrip_bare.
Qed.
End Trimming.

(** C6. The generic populate step fetches [checksum_url] and stores the
    body without the whitespace around it as the checksum: when the body is
    a text that neither starts nor ends with whitespace, with whitespace
    before it and after it, the checksum is that text.  The other fields
    stay as they were.  The body abc123 followed by a line break gives the
    checksum abc123. *)
Theorem generic_populate_trims_body
  (HttpUrl : string -> option string) (w : World)
  (beyond : string -> string -> result string)
  (self : References.ReferenceFactory) (ref0 : References.Reference)
  (t : nat) (u : string) (r : Response) (lead core trail : string) :
  References.Factory.strategy self = References.Generic ->
  References.checksum_url ref0 = Some u ->
  w t u = Ok r ->
  (200 <= status_code r < 300)%Z ->
  text r = lead ++ core ++ trail ->
  all_chars Text.is_space lead = true ->
  all_chars Text.is_space trail = true ->
  bare core = true ->
  References._populate HttpUrl w beyond
    {| self_ := self; ref_ := ref0; clock := t |}
  = (Ok tt,
     {| self_ := self;
        ref_ := {| References.algorithm := References.algorithm ref0;
                   References.checksum_url := References.checksum_url ref0;
                   References.download_url := References.download_url ref0;
                   References.checksum := Some core |};
        clock := S t |}).
Proof.
  intros Hg Hu Hw Hs Htext Hlead Htrail Hcore.
  unfold References._populate. cbn [self_]. rewrite Hg.
  unfold References.populate_generic, References.get_raised, References.read_ref.
  unfold bind at 1. cbn [ref_]. rewrite Hu.
  unfold bind.
  rewrite (get_raised_success w u r {| self_ := self; ref_ := ref0; clock := t |}
             Hw Hs).
  unfold References.set_checksum, References.update_ref, References.validate_checksum.
  cbn [self_ ref_ clock option_map].
  now rewrite Hu, Htext, (strip_trims lead core trail Hlead Htrail Hcore).
Qed.

Lemma generic_populate_trims_body_witness :
  References._populate Sample.accept_http
    (Sample.serving ("abc123" ++ Sample.nl)) Sample.beyond
    {| self_ := References.test_failure;
       ref_ := {| References.algorithm := "sha512";
                  References.checksum_url := Some "https://hecksum.com/failureSHA512.txt";
                  References.download_url := Some "https://hecksum.com/failure.txt";
                  References.checksum := None |};
       clock := 0 |}
  = (Ok tt,
     {| self_ := References.test_failure;
        ref_ := {| References.algorithm := "sha512";
                   References.checksum_url := Some "https://hecksum.com/failureSHA512.txt";
                   References.download_url := Some "https://hecksum.com/failure.txt";
                   References.checksum := Some "abc123" |};
        clock := 1 |})
  /\ References._populate Sample.accept_http
       (Sample.serving Sample.padded) Sample.beyond
       {| self_ := References.test_failure;
          ref_ := {| References.algorithm := "sha512";
                     References.checksum_url := Some "https://hecksum.com/failureSHA512.txt";
                     References.download_url := Some "https://hecksum.com/failure.txt";
                     References.checksum := None |};
          clock := 0 |}
     = (Ok tt,
        {| self_ := References.test_failure;
           ref_ := {| References.algorithm := "sha512";
                      References.checksum_url := Some "https://hecksum.com/failureSHA512.txt";
                      References.download_url := Some "https://hecksum.com/failure.txt";
                      References.checksum := Some "abc 123" |};
           clock := 1 |}).
Proof.
  split.
  - apply (generic_populate_trims_body Sample.accept_http
             (Sample.serving ("abc123" ++ Sample.nl)) Sample.beyond
             References.test_failure
             {| References.algorithm := "sha512";
                References.checksum_url := Some "https://hecksum.com/failureSHA512.txt";
                References.download_url := Some "https://hecksum.com/failure.txt";
                References.checksum := None |}
             0 "https://hecksum.com/failureSHA512.txt"
             (Sample.page ("abc123" ++ Sample.nl))
             EmptyString "abc123" Sample.nl).
    + reflexivity.
    + reflexivity.
    + reflexivity.
    + simpl. lia.
    + reflexivity.
    + reflexivity.
    + reflexivity.
    + reflexivity.
  - apply (generic_populate_trims_body Sample.accept_http
             (Sample.serving Sample.padded) Sample.beyond
             References.test_failure
             {| References.algorithm := "sha512";
                References.checksum_url := Some "https://hecksum.com/failureSHA512.txt";
                References.download_url := Some "https://hecksum.com/failure.txt";
                References.checksum := None |}
             0 "https://hecksum.com/failureSHA512.txt"
             (Sample.page Sample.padded)
             Sample.indent "abc 123" Sample.line_end).
    + reflexivity.
    + reflexivity.
    + reflexivity.
    + simpl. lia.
    + reflexivity.
    + reflexivity.
    + reflexivity.
    + reflexivity.
Defined.

(* ================================================================= *)
(** ** Reference.populated *)

Lemma truthy_iff (v : option string) :
  Text.truthy v = true <-> exists s, v = Some s /\ s <> EmptyString.
Proof.
  destruct v as [s|]; simpl.
  - rewrite negb_true_iff, String.eqb_neq. split.
    + intros H. now exists s.
    + now intros [s' [[= <-] H]].
  - split; [discriminate | now intros [s [H _]]].
Qed.

(** C7. [populated] is true exactly when the algorithm is a non-empty
    string and each of the checksum address, the download address and the
    checksum is set to a non-empty string; a Reference with one of the three
    left unset is not populated. *)
Theorem populated_iff_all_fields (r : References.Reference) :
  (References.populated r = true <->
   References.algorithm r <> EmptyString
   /\ (exists u, References.checksum_url r = Some u /\ u <> EmptyString)
   /\ (exists u, References.download_url r = Some u /\ u <> EmptyString)
   /\ (exists c, References.checksum r = Some c /\ c <> EmptyString))
  /\ (forall a d c, References.populated
        {| References.algorithm := a; References.checksum_url := None;
           References.download_url := d; References.checksum := c |} = false)
  /\ (forall a u c, References.populated
        {| References.algorithm := a; References.checksum_url := u;
           References.download_url := None; References.checksum := c |} = false)
  /\ (forall a u d, References.populated
        {| References.algorithm := a; References.checksum_url := u;
           References.download_url := d; References.checksum := None |} = false).
Proof.
  split; [|repeat split; intros ? ? ?].
  - unfold References.populated, References.dict.
    cbn [List.map List.forallb snd]. rewrite andb_true_r, !andb_true_iff.
    rewrite !truthy_iff. split.
    + intros [[s [[= <-] Hs]] Hrest]. now split.
    + intros [Ha Hrest]. split; [|exact Hrest].
      now exists (References.algorithm r).
  - unfold References.populated. cbn. now rewrite andb_false_r.
  - unfold References.populated. cbn. now rewrite !andb_false_r.
  - unfold References.populated. cbn. now rewrite !andb_false_r.
Qed.

(* ================================================================= *)
(** ** Two calls of make() *)

(** The second of two calls in a row, against a steady remote side. *)
Lemma make_again
  (IGNORED_EXCEPTIONS : exn -> bool) (HttpUrl : string -> option string)
  (w : World) (beyond : string -> string -> result string)
  (self : References.ReferenceFactory) (t : nat) :
  steady w ->
  forall r1 self1 t1 r2 self2 t2,
    References.make IGNORED_EXCEPTIONS HttpUrl w beyond self t = (r1, self1, t1) ->
    References.make IGNORED_EXCEPTIONS HttpUrl w beyond self1 t1 = (r2, self2, t2) ->
    r2 = r1 /\ self2 = self.
Proof.
  intros Hw r1 self1 t1 r2 self2 t2. unfold References.make.
  destruct (References.Reference_of HttpUrl self) as [ref0|e0] eqn:Hnew.
  - pose proof (keeps_self_try_pass _ IGNORED_EXCEPTIONS
                  (rf_populate_keeps_self HttpUrl w beyond)) as Hkeep.
    pose proof (timeless_try_pass _ IGNORED_EXCEPTIONS
                  (rf_populate_timeless HttpUrl w beyond Hw)) as Htime.
    pose proof (Hkeep {| self_ := self; ref_ := ref0; clock := t |}) as Hk1.
    destruct (try_pass (References._populate HttpUrl w beyond) IGNORED_EXCEPTIONS
                {| self_ := self; ref_ := ref0; clock := t |})
      as [o1 st1] eqn:E1.
    cbn [snd self_] in Hk1.
    intros [= <- <- <-]. rewrite Hk1, Hnew.
    pose proof (Hkeep {| self_ := self; ref_ := ref0; clock := clock st1 |}) as Hk2.
    destruct (Htime {| self_ := self; ref_ := ref0; clock := clock st1 |}
                    {| self_ := self; ref_ := ref0; clock := t |}
                    (conj eq_refl eq_refl)) as [Hout [_ Href]].
    rewrite E1 in Hout, Href.
    destruct (try_pass (References._populate HttpUrl w beyond) IGNORED_EXCEPTIONS
                {| self_ := self; ref_ := ref0; clock := clock st1 |})
      as [o2 st2] eqn:E2.
    cbn [fst snd self_] in *. intros [= <- <- <-]. subst o2.
    split; [|exact Hk2]. now rewrite Href.
  - intros [= <- <- <-]. rewrite Hnew. now intros [= <- <- <-].
Qed.

(** C9. When the remote side answers each request the same way whenever it
    is sent, a second [make] on the same factory, called after the first on
    the factory and the request count the first left, ends as the first
    did: with a Reference that has the same four fields, or with the same
    exception. *)
Theorem make_twice_same_reference
  (IGNORED_EXCEPTIONS : exn -> bool) (HttpUrl : string -> option string)
  (w : World) (beyond : string -> string -> result string)
  (self : References.ReferenceFactory) (t : nat) :
  steady w ->
  fst (fst (References.make IGNORED_EXCEPTIONS HttpUrl w beyond
              (snd (fst (References.make IGNORED_EXCEPTIONS HttpUrl w beyond self t)))
              (snd (References.make IGNORED_EXCEPTIONS HttpUrl w beyond self t))))
  = fst (fst (References.make IGNORED_EXCEPTIONS HttpUrl w beyond self t)).
Proof.
  intros Hw.
  destruct (References.make IGNORED_EXCEPTIONS HttpUrl w beyond self t)
    as [[r1 self1] t1] eqn:E1.
  cbn [fst snd].
  destruct (References.make IGNORED_EXCEPTIONS HttpUrl w beyond self1 t1)
    as [[r2 self2] t2] eqn:E2.
  cbn [fst snd].
  exact (proj1 (make_again IGNORED_EXCEPTIONS HttpUrl w beyond self t Hw
                  r1 self1 t1 r2 self2 t2 E1 E2)).
Qed.

Lemma make_twice_same_reference_witness :
  fst (fst (References.make Sample.ignorable Sample.accept_http
              (Sample.serving ("abc123" ++ Sample.nl)) Sample.beyond
              (snd (fst (References.make Sample.ignorable Sample.accept_http
                           (Sample.serving ("abc123" ++ Sample.nl)) Sample.beyond
                           References.test_failure 0)))
              (snd (References.make Sample.ignorable Sample.accept_http
                      (Sample.serving ("abc123" ++ Sample.nl)) Sample.beyond
                      References.test_failure 0))))
  = fst (fst (References.make Sample.ignorable Sample.accept_http
                (Sample.serving ("abc123" ++ Sample.nl)) Sample.beyond
                References.test_failure 0)).
Proof.
  apply (make_twice_same_reference Sample.ignorable Sample.accept_http
           (Sample.serving ("abc123" ++ Sample.nl)) Sample.beyond
           References.test_failure 0).
  intros t t' u. reflexivity.
Defined.

(** C10. [make] leaves the factory as it found it, in both files: the
    populate step writes to the Reference only. *)
Theorem make_keeps_factory
  (IGNORED_EXCEPTIONS : exn -> bool) (HttpUrl : string -> option string)
  (w : World) (beyond : string -> string -> result string) (t : nat)
  (self : References.ReferenceFactory) (self' : Hecksum.ReferenceFactory) :
  snd (fst (References.make IGNORED_EXCEPTIONS HttpUrl w beyond self t)) = self
  /\ snd (fst (Hecksum.make w beyond self' t)) = self'.
Proof.
  split.
  - unfold References.make.
    destruct (References.Reference_of HttpUrl self) as [ref0|e0]; [|reflexivity].
    pose proof (keeps_self_try_pass _ IGNORED_EXCEPTIONS
                  (rf_populate_keeps_self HttpUrl w beyond)
                  {| self_ := self; ref_ := ref0; clock := t |}) as Hk.
    destruct (try_pass _ _ _) as [o st]. exact Hk.
  - unfold Hecksum.make.
    pose proof (keeps_self_try_pass _ is_Exception (hk_populate_keeps_self w beyond)
                  {| self_ := self'; ref_ := Hecksum.new_Reference self';
                     clock := t |}) as Hk.
    destruct (try_pass _ _ _) as [o st]. exact Hk.
Qed.

(* ================================================================= *)
(** ** The checksum of a download *)

Lemma split_at_app {A} (l : list A) : forall n,
  (fst (split_at n l) ++ snd (split_at n l))%list = l.
Proof.
  induction l as [|x l IH]; intros n; cbn [split_at]; [reflexivity|].
  destruct (n =? 0)%N; [reflexivity|].
  specialize (IH (N.pred n)). destruct (split_at (N.pred n) l) as [a b].
  cbn [fst snd List.app] in *. now f_equal.
Qed.

Lemma split_at_rest {A} (l : list A) : forall n,
  List.length (snd (split_at n l)) <= List.length l.
Proof.
  induction l as [|x l IH]; intros n; cbn [split_at]; [reflexivity|].
  destruct (n =? 0)%N; [reflexivity|].
  specialize (IH (N.pred n)). destruct (split_at (N.pred n) l) as [a b].
  cbn [fst snd List.length] in *. lia.
Qed.

(** The slices of a body, put end to end, are the body. *)
Lemma slices_concat {A} (n : N) : n <> 0%N -> forall fuel (l : list A),
  List.length l <= fuel -> List.concat (slices fuel n l) = l.
Proof.
  intros Hn. induction fuel as [|fuel IH]; intros l Hl.
  - destruct l; [reflexivity | simpl in Hl; lia].
  - destruct l as [|x l]; [reflexivity|].
    cbn [slices].
    pose proof (split_at_app (x :: l) n) as Happ.
    assert (Hrest : List.length (snd (split_at n (x :: l))) <= fuel).
    { cbn [split_at]. apply N.eqb_neq in Hn. rewrite Hn.
      pose proof (split_at_rest l (N.pred n)) as Hr.
      destruct (split_at (N.pred n) l) as [a b]. cbn [snd List.length] in *. lia. }
    destruct (split_at n (x :: l)) as [a b]. cbn [fst snd] in *.
    cbn [List.concat]. now rewrite (IH b Hrest).
Qed.

Lemma fold_update chunks : forall h,
  List.fold_left References.update chunks h
  = {| References.algo := References.algo h;
       References.fed := (References.fed h ++ List.concat chunks)%list |}.
Proof.
  induction chunks as [|c chunks IH]; intros h; cbn [List.fold_left List.concat].
  - rewrite List.app_nil_r. now destruct h.
  - rewrite IH. unfold References.update at 2. cbn [References.algo References.fed].
    now rewrite List.app_assoc.
Qed.

(** Fed slice by slice, the hash object has seen the whole body: the
    checksum of a download is the SHA-256 of its bytes. *)
Lemma download_checksum_sha256
  (other : string -> option (list byte -> list byte)) (w : World)
  (self : References.Reference) (t : nat) (u : string) (r : Response) :
  References.algorithm self = "sha256" ->
  References.download_url self = Some u ->
  w t u = Ok r ->
  (200 <= status_code r < 300)%Z ->
  References.get_download_checksum other w self t
  = (Ok (hex (Sha256.digest (content r))), S t).
Proof.
  intros Ha Hu Hw Hs.
  unfold References.get_download_checksum, bind, lift, ret, http_get.
  rewrite Ha, Hu, Hw. cbn [References.hashlib_new String.eqb Ascii.eqb Bool.eqb].
  rewrite (raise_for_status_success r Hs), fold_update.
  unfold References.hexdigest, iter_content.
  cbn [References.algo References.fed List.app].
  now rewrite slices_concat by (reflexivity || lia || discriminate).
Qed.

(** C8. For a Reference whose algorithm is sha256, a download that
    succeeds with a body of zero bytes has the checksum
    e3b0c442...7852b855, the SHA-256 of the empty string. *)
Theorem sha256_of_empty_download
  (other : string -> option (list byte -> list byte)) (w : World)
  (self : References.Reference) (t : nat) (u : string) (r : Response) :
  References.algorithm self = "sha256" ->
  References.download_url self = Some u ->
  w t u = Ok r ->
  (200 <= status_code r < 300)%Z ->
  content r = [] ->
  References.get_download_checksum other w self t
  = (Ok "e3b0c44298fc1c149afbf4c8996fb92427ae41e4649b934ca495991b7852b855", S t).
Proof.
  intros Ha Hu Hw Hs Hc.
  rewrite (download_checksum_sha256 other w self t u r Ha Hu Hw Hs), Hc.
  vm_compute. reflexivity.
Qed.

Lemma sha256_of_empty_download_witness :
  References.get_download_checksum Sample.sha256_only (Sample.serving_file [])
    {| References.algorithm := "sha256";
       References.checksum_url := None;
       References.download_url := Some "https://hecksum.com/failure.txt";
       References.checksum := None |} 0
  = (Ok "e3b0c44298fc1c149afbf4c8996fb92427ae41e4649b934ca495991b7852b855", 1).
Proof.
  apply (sha256_of_empty_download Sample.sha256_only (Sample.serving_file [])
           {| References.algorithm := "sha256";
              References.checksum_url := None;
              References.download_url := Some "https://hecksum.com/failure.txt";
              References.checksum := None |}
           0 "https://hecksum.com/failure.txt" (Sample.file [])).
  - reflexivity.
  - reflexivity.
  - reflexivity.
  - simpl. lia.
  - reflexivity.
Defined.

(* ================================================================= *)
(** ** Steps of a populate run that succeed *)

Lemma bind_ok {S A B} (m : M S A) (k : A -> M S B) (st st' : S) (a : A) :
  m st = (Ok a, st') -> bind m k st = k a st'.
Proof. intros H. unfold bind. now rewrite H. Qed.

Lemma requests_get_ok {F R} (w : World) (u : string) (r : Response) (st : Store F R) :
  w (clock st) u = Ok r ->
  requests_get w (Some u) st
  = (Ok r, {| self_ := self_ st; ref_ := ref_ st; clock := S (clock st) |}).
Proof. intros H. unfold requests_get, http_get. now rewrite H. Qed.

Section ReferenceSteps.
Import References.
Variable HttpUrl : string -> option string.

Lemma set_checksum_url_ok v u (st : State) :
  HttpUrl v = Some u ->
  set_checksum_url HttpUrl v st
  = (Ok tt, {| self_ := self_ st;
               ref_ := {| algorithm := algorithm (ref_ st);
                          checksum_url := Some u;
                          download_url := download_url (ref_ st);
                          checksum := checksum (ref_ st) |};
               clock := clock st |}).
Proof.
  intros H. unfold set_checksum_url, bind, lift, validate_url. now rewrite H.
Qed.

Lemma set_download_url_ok v u (st : State) :
  HttpUrl v = Some u ->
  set_download_url HttpUrl v st
  = (Ok tt, {| self_ := self_ st;
               ref_ := {| algorithm := algorithm (ref_ st);
                          checksum_url := checksum_url (ref_ st);
                          download_url := Some u;
                          checksum := checksum (ref_ st) |};
               clock := clock st |}).
Proof.
  intros H. unfold set_download_url, bind, lift, validate_url. now rewrite H.
Qed.
End ReferenceSteps.

(* ================================================================= *)
(** ** The release-manifest factory *)

(** C4. The Doppler populate step takes the release number from the address
    the latest-release request ended at, whatever the status and the body of
    that response, and fetches the manifest of that release.  When the
    manifest is a text of lines, checksum and file name are groups 1 and 2
    of the match in the first line the pattern matches, whatever the lines
    after it hold. *)
Theorem doppler_first_matching_line
  (HttpUrl : string -> option string) (w : World)
  (self : References.ReferenceFactory) (ref0 : References.Reference) (t : nat)
  (architecture version manifest download : string)
  (r r' : Response) (mv m : Re.Match)
  (pre post : list string) (line : string) :
  Re.plain architecture = true ->
  w t References.latest_release = Ok r ->
  Re.search References.release_pattern (url r) = Some mv ->
  Re.whole mv = version ->
  HttpUrl (References.manifest_url version) = Some manifest ->
  w (S t) manifest = Ok r' ->
  (200 <= status_code r' < 300)%Z ->
  text r' = Text.join_lines (pre ++ line :: post) ->
  Forall (fun l => Re.search (References.doppler_pattern version architecture) l
                   = None) pre ->
  Re.search (References.doppler_pattern version architecture) line = Some m ->
  HttpUrl (References.release_url version (Text.to_str (Re.group m 2)))
  = Some download ->
  References.populate_doppler HttpUrl w architecture
    {| self_ := self; ref_ := ref0; clock := t |}
  = (Ok tt,
     {| self_ := self;
        ref_ := {| References.algorithm := References.algorithm ref0;
                   References.checksum_url := Some manifest;
                   References.download_url := Some download;
                   References.checksum := Re.group m 1 |};
        clock := S (S t) |}).
Proof.
  intros Harch Hw Hmv Hversion Hmanifest Hw' Hs Htext Hpre Hline Hdownload.
  assert (Hnl : Re.nl_free (References.doppler_pattern version architecture) = true).
  { apply doppler_pattern_nl_free; [|exact Harch]. subst version.
    exact (search_line_bound _ _ _ release_pattern_nl_free Hmv). }
  assert (Hm : Re.search (References.doppler_pattern version architecture) (text r')
               = Some m).
  { rewrite Htext. now apply search_lines. }
  unfold References.populate_doppler.
  erewrite bind_ok by (apply requests_get_ok; exact Hw).
  rewrite Hmv. cbn [item_of Re.group]. rewrite Hversion.
  erewrite bind_ok by reflexivity. cbn [Text.to_str].
  erewrite bind_ok by (apply set_checksum_url_ok; exact Hmanifest).
  erewrite bind_ok by reflexivity. cbn [ref_ References.checksum_url].
  unfold References.get_raised.
  erewrite bind_ok by (apply get_raised_success; [exact Hw' | exact Hs]).
  rewrite Hm. cbn [group_of].
  erewrite bind_ok by reflexivity.
  erewrite bind_ok by reflexivity.
  erewrite bind_ok by reflexivity.
  cbn [self_ ref_ clock].
  erewrite set_download_url_ok by exact Hdownload.
  cbn [self_ ref_ clock References.algorithm References.checksum_url
       References.download_url References.checksum].
  unfold References.validate_checksum.
  now rewrite (doppler_checksum_kept version architecture line m Hline).
Qed.

Lemma doppler_first_matching_line_witness :
  References.populate_doppler Sample.accept_http Sample.doppler_world "linux_arm64"
    {| self_ := References.doppler_windows_armv7;
       ref_ := {| References.algorithm := "sha256";
                  References.checksum_url := None;
                  References.download_url := None;
                  References.checksum := None |};
       clock := 0 |}
  = (Ok tt,
     {| self_ := References.doppler_windows_armv7;
        ref_ := {| References.algorithm := "sha256";
                   References.checksum_url :=
                     Some "https://github.com/DopplerHQ/cli/releases/download/3.24.1/checksums.txt";
                   References.download_url :=
                     Some "https://github.com/DopplerHQ/cli/releases/download/3.24.1/doppler_3.24.1_linux_arm64.deb";
                   References.checksum := Some Sample.digest_a |};
        clock := 2 |}).
Proof.
  apply (doppler_first_matching_line Sample.accept_http Sample.doppler_world
           References.doppler_windows_armv7
           {| References.algorithm := "sha256";
              References.checksum_url := None;
              References.download_url := None;
              References.checksum := None |}
           0 "linux_arm64" "3.24.1"
           "https://github.com/DopplerHQ/cli/releases/download/3.24.1/checksums.txt"
           "https://github.com/DopplerHQ/cli/releases/download/3.24.1/doppler_3.24.1_linux_arm64.deb"
           Sample.release_page
           (Sample.page (Text.join_lines
                           (Sample.manifest_head
                              ++ Sample.manifest_line :: Sample.manifest_tail)))
           Sample.release_match Sample.line_match
           Sample.manifest_head Sample.manifest_tail Sample.manifest_line).
  - reflexivity.
  - reflexivity.
  - vm_compute. reflexivity.
  - reflexivity.
  - reflexivity.
  - reflexivity.
  - simpl. lia.
  - reflexivity.
  - repeat constructor.
  - vm_compute. reflexivity.
  - reflexivity.
Defined.

(* ================================================================= *)
(** ** The JS-constants factory *)

(** C5, as stated, fails when the two constants share a line: the group
    runs to the last double quote of the line, and the checksum is not
    deadbeef. *)
Lemma transmission_one_line_counterexample :
  Text.occurs Sample.sha_snippet Sample.one_line = true
  /\ Text.occurs Sample.version_snippet Sample.one_line = true
  /\ exists ref,
       fst (fst (References.make Sample.ignorable Sample.accept_http
                   (Sample.serving Sample.one_line) Sample.beyond
                   Sample.foo_factory 0))
       = Ok ref
       /\ References.checksum ref <> Some "deadbeef".
Proof.
  split; [vm_compute; reflexivity|].
  split; [vm_compute; reflexivity|].
  eexists. split; [vm_compute; reflexivity|].
  cbn [References.checksum]. intros H. vm_compute in H. discriminate H.
Qed.

(** C5, amended. When the text fetched has the opening of the checksum
    constant first at a place where deadbeef and a double quote follow, with
    no further double quote on that line, and likewise the opening of the
    version constant first where 3.00 and a double quote follow, [make]
    returns a Reference whose checksum is deadbeef and whose download
    address ends in Foo-3.00.dmg, provided the address validates as it is. *)
Theorem transmission_constants_first_on_line
  (IGNORED_EXCEPTIONS : exn -> bool) (HttpUrl : string -> option string)
  (w : World) (beyond : string -> string -> result string)
  (self : References.ReferenceFactory) (t : nat)
  (ref0 : References.Reference) (u : string) (r : Response)
  (pre1 trail1 pre2 trail2 : string) :
  References.Factory.strategy self
  = References.Transmission "Foo-{version}.dmg" "sha256_dmg" "current_version_dmg" ->
  References.Reference_of HttpUrl self = Ok ref0 ->
  References.checksum_url ref0 = Some u ->
  w t u = Ok r ->
  (200 <= status_code r < 300)%Z ->
  text r = pre1 ++ opening "sha256_dmg" ++ "deadbeef" ++ String Text.quote trail1 ->
  Text.find (opening "sha256_dmg") (text r) = Some (String.length pre1) ->
  Text.contains Text.quote (Text.first_line trail1) = false ->
  text r = pre2 ++ opening "current_version_dmg" ++ "3.00" ++ String Text.quote trail2 ->
  Text.find (opening "current_version_dmg") (text r) = Some (String.length pre2) ->
  Text.contains Text.quote (Text.first_line trail2) = false ->
  HttpUrl (References.transmission_url "Foo-3.00.dmg")
  = Some (References.transmission_url "Foo-3.00.dmg") ->
  exists ref,
    References.make IGNORED_EXCEPTIONS HttpUrl w beyond self t = (Ok ref, self, S t)
    /\ References.checksum ref = Some "deadbeef"
    /\ References.download_url ref = Some (References.transmission_url "Foo-3.00.dmg")
    /\ Text.endswith (References.transmission_url "Foo-3.00.dmg") "Foo-3.00.dmg"
       = true.
Proof.
  intros Hkind Hnew Hu Hw Hs Htext1 Hfind1 Htrail1 Htext2 Hfind2 Htrail2 Hurl.
  assert (Hsha : Re.search (Patterns.constant_pattern "sha256_dmg") (text r)
                 = Some {| Re.whole := opening "sha256_dmg" ++ "deadbeef"
                                       ++ String Text.quote EmptyString;
                           Re.groups := [(1, "deadbeef")] |}).
  { revert Hfind1. rewrite Htext1. intros Hfind1.
    now apply search_constant. }
  assert (Hver : Re.search (Patterns.constant_pattern "current_version_dmg") (text r)
                 = Some {| Re.whole := opening "current_version_dmg" ++ "3.00"
                                       ++ String Text.quote EmptyString;
                           Re.groups := [(1, "3.00")] |}).
  { revert Hfind2. rewrite Htext2. intros Hfind2.
    now apply search_constant. }
  eexists. split; [|split; [|split]].
  - unfold References.make, try_pass, References._populate.
    rewrite Hnew. cbn [self_]. rewrite Hkind.
    unfold References.populate_transmission.
    erewrite bind_ok by reflexivity. cbn [ref_]. rewrite Hu.
    unfold References.get_raised.
    erewrite bind_ok by (apply get_raised_success; [exact Hw | exact Hs]).
    cbv zeta. rewrite Hsha, Hver. cbn [group_of Re.group Re.lookup_group Nat.eqb].
    erewrite bind_ok by reflexivity.
    erewrite bind_ok by reflexivity.
    erewrite bind_ok by reflexivity.
    erewrite bind_ok by reflexivity.
    erewrite set_download_url_ok by exact Hurl.
    cbn [self_ ref_ clock]. reflexivity.
  - reflexivity.
  - reflexivity.
  - vm_compute. reflexivity.
Qed.

Lemma transmission_constants_first_on_line_witness :
  exists ref,
    References.make Sample.ignorable Sample.accept_http
      (Sample.serving Sample.two_lines) Sample.beyond Sample.foo_factory 0
    = (Ok ref, Sample.foo_factory, 1)
    /\ References.checksum ref = Some "deadbeef"
    /\ References.download_url ref = Some (References.transmission_url "Foo-3.00.dmg")
    /\ Text.endswith (References.transmission_url "Foo-3.00.dmg") "Foo-3.00.dmg"
       = true.
Proof.
  apply (transmission_constants_first_on_line Sample.ignorable Sample.accept_http
           (Sample.serving Sample.two_lines) Sample.beyond Sample.foo_factory 0
           {| References.algorithm := "sha256";
              References.checksum_url :=
                Some "https://transmissionbt.com/includes/js/constants.js";
              References.download_url := None;
              References.checksum := None |}
           "https://transmissionbt.com/includes/js/constants.js"
           (Sample.page Sample.two_lines)
           ("const constants = {" ++ Sample.nl ++ "  ")
           ("," ++ Sample.nl ++ "  " ++ Sample.version_snippet ++ ","
            ++ Sample.nl ++ "};" ++ Sample.nl)
           ("const constants = {" ++ Sample.nl ++ "  " ++ Sample.sha_snippet ++ ","
            ++ Sample.nl ++ "  ")
           ("," ++ Sample.nl ++ "};" ++ Sample.nl)).
  - reflexivity.
  - reflexivity.
  - reflexivity.
  - reflexivity.
  - simpl. lia.
  - reflexivity.
  - vm_compute. reflexivity.
  - reflexivity.
  - reflexivity.
  - vm_compute. reflexivity.
  - reflexivity.
  - reflexivity.
Defined.

(* ================================================================= *)
(** ** Further properties: the fetch helper *)


(* ================================================================= *)
(** ** Further properties: src/hecksum.py *)

(** X2. In src/hecksum.py the generic populate step stores the body of the
    checksum address as it is, the whitespace around it included. *)
Theorem legacy_generic_keeps_body
  (w : World) (beyond : string -> string -> result string)
  (self : Hecksum.ReferenceFactory) (t : nat) (u : string) (r : Response) :
  Hecksum.Factory.strategy self = Hecksum.Generic ->
  Hecksum.Factory.checksum_url self = Some u ->
  w t u = Ok r ->
  (200 <= status_code r < 300)%Z ->
  Hecksum.make w beyond self t
  = (Ok {| Hecksum.hash_function := Some (Hecksum.Factory.hasher self);
           Hecksum.checksum_url := Some u;
           Hecksum.download_url := Hecksum.Factory.download_url self;
           Hecksum.checksum := Some (text r) |},
     self, S t).
Proof.
  intros Hg Hu Hw Hs.
  unfold Hecksum.make, try_pass, Hecksum._populate. cbn [self_]. rewrite Hg.
  unfold Hecksum.populate_generic.
  erewrite bind_ok by reflexivity.
  cbn [ref_ Hecksum.new_Reference Hecksum.checksum_url]. rewrite Hu.
  erewrite bind_ok by (apply get_raised_success; [exact Hw | exact Hs]).
  unfold Hecksum.set_checksum, Hecksum.update_ref.
  cbn [self_ ref_ clock Hecksum.hash_function Hecksum.checksum_url
       Hecksum.download_url Hecksum.checksum Hecksum.new_Reference].
  rewrite ?Hu. reflexivity.
Qed.

Lemma legacy_generic_keeps_body_witness :
  Hecksum.make (Sample.serving ("abc123" ++ Sample.nl)) Sample.beyond
    Hecksum.test_failure 0
  = (Ok {| Hecksum.hash_function := Some "openssl_sha512";
           Hecksum.checksum_url := Some "https://hecksum.com/failureSHA512.txt";
           Hecksum.download_url := Some "https://hecksum.com/failure.txt";
           Hecksum.checksum := Some ("abc123" ++ Sample.nl) |},
     Hecksum.test_failure, 1).
Proof.
  apply (legacy_generic_keeps_body (Sample.serving ("abc123" ++ Sample.nl))
           Sample.beyond Hecksum.test_failure 0 "https://hecksum.com/failureSHA512.txt"
           (Sample.page ("abc123" ++ Sample.nl))).
  - reflexivity.
  - reflexivity.
  - reflexivity.
  - simpl. lia.
Defined.

Lemma get_raised_reads_only {F R} (w : World) (u : option string) :
  reads_only (get_raised (F := F) (R := R) w u).
Proof.
  intros st. unfold get_raised, bind, requests_get, http_get, lift, ret.
  destruct u as [u|]; [|reflexivity].
  destruct (w (clock st) u) as [r|e]; [|reflexivity].
  now destruct (raise_for_status r).
Qed.

(** What the populate step of a Transmission factory does in
    src/hecksum.py: it raises, and the Reference is as it was. *)
Lemma legacy_transmission_fails (w : World)
  (beyond : string -> string -> result string) (st : Hecksum.State) :
  exists e st',
    Hecksum.populate_transmission w beyond st = (Raise e, st')
    /\ ref_ st' = ref_ st
    /\ self_ st' = self_ st
    /\ (benign w -> is_Exception e = true).
Proof.
  unfold Hecksum.populate_transmission.
  unfold bind at 1. unfold Hecksum.read_ref at 1.
  unfold bind at 1.
  pose proof (get_raised_reads_only w (Hecksum.checksum_url (ref_ st)) st) as Href.
  pose proof (keeps_self_get_raised w (Hecksum.checksum_url (ref_ st)) st) as Hself.
  pose proof (fun Hw : benign w =>
                raises_get_raised (F := Hecksum.ReferenceFactory)
                  (R := Hecksum.Reference) w (Hecksum.checksum_url (ref_ st)) Hw st)
    as Hraise.
  destruct (get_raised w (Hecksum.checksum_url (ref_ st)) st) as [[r|e] st'].
  - exists AttributeError, st'. cbn [snd] in *. now repeat split.
  - exists e, st'. cbn [snd] in *. repeat split; try assumption.
    intros Hw. eapply Hraise; [exact Hw | reflexivity].
Qed.

(** X3. In src/hecksum.py the populate step of a Transmission factory reads
    its keys from the Reference, which has no such attributes, so it never
    writes anything: with a remote side that fails with exceptions only,
    [make] returns the Reference with the fields the factory gave it,
    whatever the script holds. *)
Theorem legacy_transmission_never_populates
  (w : World) (beyond : string -> string -> result string)
  (self : Hecksum.ReferenceFactory) (t : nat)
  (file_name_template sha_key version_key : string) :
  Hecksum.Factory.strategy self
  = Hecksum.Transmission file_name_template sha_key version_key ->
  benign w ->
  fst (fst (Hecksum.make w beyond self t)) = Ok (Hecksum.new_Reference self).
Proof.
  intros Hkind Hw. unfold Hecksum.make, try_pass, Hecksum._populate.
  cbn [self_]. rewrite Hkind.
  destruct (legacy_transmission_fails w beyond
              {| self_ := self; ref_ := Hecksum.new_Reference self; clock := t |})
    as [e [st' [-> [Href [_ He]]]]].
  rewrite (He Hw). cbn [fst]. now rewrite Href.
Qed.

Lemma legacy_transmission_never_populates_witness :
  fst (fst (Hecksum.make (Sample.serving Sample.two_lines) Sample.beyond
              Sample.legacy_transmission 0))
  = Ok (Hecksum.new_Reference Sample.legacy_transmission).
Proof.
  apply (legacy_transmission_never_populates (Sample.serving Sample.two_lines)
           Sample.beyond Sample.legacy_transmission 0
           "Transmission-{version}.dmg" "sha256_dmg" "current_version_dmg").
  - reflexivity.
  - intros t u e. discriminate.
Defined.

(** X4. [Check.create] never requests the artifact: it has sent as many
    requests when it ends as the resolution of the Reference has, it raises
    only what that resolution raised, and a Check it returns has the status
    Error and the three fields of the Reference. *)
Theorem create_never_downloads
  (REFERENCE_FACTORIES : gmap string Hecksum.ReferenceFactory) (w : World)
  (beyond : string -> string -> result string) (p : Hecksum.Project) (t : nat) :
  snd (Hecksum.create REFERENCE_FACTORIES w beyond p t)
  = snd (Hecksum.reference REFERENCE_FACTORIES w beyond p t)
  /\ match fst (Hecksum.reference REFERENCE_FACTORIES w beyond p t) with
     | Ok ref =>
         fst (Hecksum.create REFERENCE_FACTORIES w beyond p t)
         = Ok {| Hecksum.project := p;
                 Hecksum.status := Hecksum.error;
                 Hecksum.check_checksum := Hecksum.checksum ref;
                 Hecksum.check_checksum_url := Hecksum.checksum_url ref;
                 Hecksum.check_download_url := Hecksum.download_url ref |}
     | Raise e => fst (Hecksum.create REFERENCE_FACTORIES w beyond p t) = Raise e
     end.
Proof.
  unfold Hecksum.create, bind.
  destruct (Hecksum.reference REFERENCE_FACTORIES w beyond p t) as [[ref|e] t'];
    now split.
Qed.


(* ================================================================= *)
(** ** What stripping leaves *)

Section Stripping.
Import Text.

Lemma lstrip_head s :
  lstrip s = EmptyString
  \/ exists c t, lstrip s = String c t /\ is_space c = false.
Proof.
  induction s as [|c s IH]; [now left|].
  cbn [lstrip]. destruct (is_space c) eqn:Hc; [exact IH|].
  right. now exists c, s.
Qed.

Lemma rstrip_head c t :
  is_space c = false -> exists t', rstrip (String c t) = String c t'.
Proof.
  intros Hc. cbn [rstrip]. destruct (rstrip t) as [|d u].
  - rewrite Hc. now exists EmptyString.
  - now exists (String d u).
Qed.

Lemma rstrip_last s :
  rstrip s = EmptyString
  \/ exists c t, rstrip s = String c t /\ is_space (last_char t c) = false.
Proof.
  induction s as [|c s IH]; [now left|].
  cbn [rstrip]. destruct IH as [->|[d [u [-> Hlast]]]].
  - destruct (is_space c) eqn:Hc; [now left|].
    right. now exists c, EmptyString.
  - right. now exists c, (String d u).
Qed.

(** A stripped text neither starts nor ends with whitespace. *)
Lemma strip_bare s : bare (strip s) = true.
Proof.
  unfold strip. destruct (lstrip_head s) as [->|[c [t [-> Hc]]]]; [reflexivity|].
  destruct (rstrip_head c t Hc) as [t' Ht].
  destruct (rstrip_last (String c t)) as [He|[c0 [t0 [He Hlast]]]];
    rewrite Ht in He; [discriminate|].
  injection He as <- <-. rewrite Ht. cbn [bare].
  now rewrite Hc, Hlast.
Qed.
End Stripping.

(* ================================================================= *)
(** ** What stays true of the Reference, and how many requests are sent *)

Section Keeping.
Context {F R : Type}.
Variable P : R -> Prop.
Local Abbreviation ref_keeps := (ref_keeps (F := F) (R := R)).
Local Abbreviation sends := (sends (F := F) (R := R)).

Lemma ref_keeps_ret {A} (a : A) : ref_keeps P (ret a).
Proof. now intros st. Qed.

Lemma ref_keeps_lift {A} (r : result A) : ref_keeps P (lift r).
Proof. now intros st. Qed.

Lemma ref_keeps_bind {A B} (m : M (Store F R) A) (k : A -> M (Store F R) B) :
  ref_keeps P m -> (forall a, ref_keeps P (k a)) -> ref_keeps P (bind m k).
Proof.
  intros Hm Hk st H. unfold bind. specialize (Hm st H).
  destruct (m st) as [[a|e] st']; cbn [snd] in *; [|exact Hm].
  now apply Hk.
Qed.

Lemma ref_keeps_requests_get w u : ref_keeps P (requests_get w u).
Proof.
  intros st H. unfold requests_get. now destruct (http_get w u (clock st)).
Qed.

Lemma ref_keeps_get_raised w u : ref_keeps P (get_raised w u).
Proof. intros st H. now rewrite get_raised_reads_only. Qed.

Lemma ref_keeps_try_pass (m : M (Store F R) unit) handled :
  ref_keeps P m -> ref_keeps P (try_pass m handled).
Proof.
  intros Hm st H. unfold try_pass. specialize (Hm st H).
  destruct (m st) as [[[]|e] st']; cbn [snd] in *; [exact Hm|].
  now destruct (handled e).
Qed.

Lemma ref_keeps_read {A} (f : R -> A) :
  ref_keeps P (fun st => (Ok (f (ref_ st)), st)).
Proof. now intros st. Qed.

Lemma sends_ret {A} (a : A) : sends 0 (ret a).
Proof. intros st. cbn. lia. Qed.

Lemma sends_lift {A} (r : result A) : sends 0 (lift r).
Proof. intros st. cbn. lia. Qed.

Lemma sends_bind {A B} k1 k2 (m : M (Store F R) A) (k : A -> M (Store F R) B) :
  sends k1 m -> (forall a, sends k2 (k a)) -> sends (k1 + k2) (bind m k).
Proof.
  intros Hm Hk st. unfold bind. specialize (Hm st).
  destruct (m st) as [[a|e] st']; cbn [snd] in *; [|lia].
  specialize (Hk a st'). lia.
Qed.

Lemma sends_more {A} k k' (m : M (Store F R) A) :
  sends k m -> k <= k' -> sends k' m.
Proof. intros Hm Hk st. specialize (Hm st). lia. Qed.

Lemma sends_requests_get w u : sends 1 (requests_get w u).
Proof.
  intros st. unfold requests_get, http_get. destruct u; cbn; lia.
Qed.

Lemma sends_get_raised w u : sends 1 (get_raised w u).
Proof.
  intros st. unfold get_raised, bind, requests_get, http_get, lift, ret.
  destruct u as [u|]; [|cbn; lia].
  destruct (w (clock st) u) as [r|e]; [|cbn; lia].
  destruct (raise_for_status r); cbn; lia.
Qed.

Lemma sends_try_pass k (m : M (Store F R) unit) handled :
  sends k m -> sends k (try_pass m handled).
Proof.
  intros Hm st. unfold try_pass. specialize (Hm st).
  destruct (m st) as [[[]|e] st']; cbn [snd] in *; [exact Hm|].
  now destruct (handled e).
Qed.

Lemma sends_read {A} (f : R -> result A) :
  sends 0 (fun st => (f (ref_ st), st)).
Proof. intros st. cbn. lia. Qed.

Lemma sends_write (f : R -> R) :
  sends 0 (fun st => (Ok tt, {| self_ := self_ st; ref_ := f (ref_ st);
                                clock := clock st |})).
Proof. intros st. cbn. lia. Qed.
End Keeping.

Create HintDb kept.
#[local] Hint Resolve ref_keeps_ret ref_keeps_lift ref_keeps_requests_get
  ref_keeps_get_raised ref_keeps_try_pass ref_keeps_read : kept.

Create HintDb sent.
#[local] Hint Resolve sends_ret sends_lift sends_requests_get sends_get_raised
  sends_try_pass sends_read sends_write : sent.

Ltac kept_steps :=
  cbv zeta;
  repeat first
    [ solve [eauto with kept]
    | apply ref_keeps_bind; [solve [eauto with kept] | intros ?] ].

(** Counts the requests along a chain of binds and compares with the
    bound. *)
Ltac sent_steps :=
  cbv zeta;
  eapply sends_more;
  [ repeat (eapply sends_bind; [solve [eauto with sent] | intros ?]);
    cbv zeta; solve [eauto with sent]
  | cbn; lia ].

Section ReferencesKeeping.
Import References.
Variable HttpUrl : string -> option string.
Variable w : World.
Variable beyond : string -> string -> result string.
Variable alg : string.

Lemma rf_read_keeps {A} (Q : Reference -> Prop) (f : Reference -> A) :
  ref_keeps (F := ReferenceFactory) Q (read_ref f).
Proof. now intros st. Qed.

Lemma set_checksum_well_formed v :
  ref_keeps (F := ReferenceFactory) (well_formed HttpUrl alg) (set_checksum v).
Proof.
  intros st [Ha [Hc [Hd Hs]]]. cbn. repeat split; try assumption.
  intros c Hv. unfold validate_checksum in Hv.
  destruct v as [x|]; [|discriminate]. cbn in Hv. injection Hv as <-.
  apply strip_bare.
Qed.

Lemma set_checksum_url_well_formed v :
  ref_keeps (F := ReferenceFactory) (well_formed HttpUrl alg)
    (set_checksum_url HttpUrl v).
Proof.
  intros st [Ha [Hc [Hd Hs]]].
  unfold set_checksum_url, bind, lift, validate_url.
  destruct (HttpUrl v) as [u|] eqn:E; cbn [snd]; [|now repeat split].
  cbn. repeat split; try assumption.
  intros u' [= <-]. now exists v.
Qed.

Lemma set_download_url_well_formed v :
  ref_keeps (F := ReferenceFactory) (well_formed HttpUrl alg)
    (set_download_url HttpUrl v).
Proof.
  intros st [Ha [Hc [Hd Hs]]].
  unfold set_download_url, bind, lift, validate_url.
  destruct (HttpUrl v) as [u|] eqn:E; cbn [snd]; [|now repeat split].
  cbn. repeat split; try assumption.
  intros u' [= <-]. now exists v.
Qed.

Hint Resolve rf_read_keeps set_checksum_well_formed set_checksum_url_well_formed
  set_download_url_well_formed : kept.

Lemma populate_well_formed :
  ref_keeps (well_formed HttpUrl alg) (_populate HttpUrl w beyond).
Proof.
  assert (ref_keeps (F := ReferenceFactory) (well_formed HttpUrl alg)
            (populate_generic w)).
  { unfold populate_generic, get_raised. kept_steps. }
  assert (ref_keeps (F := ReferenceFactory) (well_formed HttpUrl alg)
            (populate_codecov HttpUrl w)).
  { unfold populate_codecov, get_raised. kept_steps. }
  assert (forall a b c, ref_keeps (F := ReferenceFactory) (well_formed HttpUrl alg)
                          (populate_transmission HttpUrl w beyond a b c)).
  { intros. unfold populate_transmission, get_raised. kept_steps. }
  assert (forall a, ref_keeps (F := ReferenceFactory) (well_formed HttpUrl alg)
                      (populate_doppler HttpUrl w a)).
  { intros. unfold populate_doppler, get_raised. kept_steps. }
  intros st. unfold _populate.
  destruct (Factory.strategy (self_ st)); unfold ref_keeps in *; auto.
Qed.

Lemma Reference_of_well_formed self ref0 :
  Factory.algorithm self = alg ->
  Reference_of HttpUrl self = Ok ref0 -> well_formed HttpUrl alg ref0.
Proof.
  intros Ha. unfold Reference_of, new_Reference, validate_url.
  destruct (Factory.checksum_url self) as [cu|] eqn:Ecu;
    destruct (Factory.download_url self) as [du|] eqn:Edu;
    repeat match goal with
           | |- context [HttpUrl ?x] => destruct (HttpUrl x) eqn:?
           end;
    try discriminate; intros [= <-]; cbn;
    (repeat split; try assumption;
     [ intros u' Hu'; try discriminate; injection Hu' as <-; eauto
     | intros u' Hu'; try discriminate; injection Hu' as <-; eauto
     | intros c Hc; unfold validate_checksum in Hc;
       destruct (Factory.checksum self); [|discriminate];
       cbn in Hc; injection Hc as <-; apply strip_bare ]).
Qed.

(** Whatever [make] returns has gone through validation. *)
Lemma make_well_formed IGNORED_EXCEPTIONS self t ref :
  Factory.algorithm self = alg ->
  fst (fst (make IGNORED_EXCEPTIONS HttpUrl w beyond self t)) = Ok ref ->
  well_formed HttpUrl alg ref.
Proof.
  intros Ha. unfold make.
  destruct (Reference_of HttpUrl self) as [ref0|e] eqn:E; [|discriminate].
  pose proof (ref_keeps_try_pass _ _ IGNORED_EXCEPTIONS populate_well_formed
                {| self_ := self; ref_ := ref0; clock := t |}
                (Reference_of_well_formed self ref0 Ha E)) as H.
  destruct (try_pass _ _ _) as [[[]|e] st]; cbn [fst snd] in *; [|discriminate].
  now intros [= <-].
Qed.
End ReferencesKeeping.

(** X6. The Reference [make] returns has the algorithm of the factory: no
    populate step writes to it. *)
Theorem make_keeps_algorithm
  (IGNORED_EXCEPTIONS : exn -> bool) (HttpUrl : string -> option string)
  (w : World) (beyond : string -> string -> result string)
  (self : References.ReferenceFactory) (t : nat)
  (ref : References.Reference) :
  fst (fst (References.make IGNORED_EXCEPTIONS HttpUrl w beyond self t)) = Ok ref ->
  References.algorithm ref = References.Factory.algorithm self.
Proof.
  intros H.
  exact (proj1 (make_well_formed HttpUrl w beyond _ IGNORED_EXCEPTIONS self t ref
                  eq_refl H)).
Qed.

Lemma make_keeps_algorithm_witness :
  References.algorithm
    {| References.algorithm := "sha256";
       References.checksum_url :=
         Some "https://github.com/DopplerHQ/cli/releases/download/3.24.1/checksums.txt";
       References.download_url :=
         Some "https://github.com/DopplerHQ/cli/releases/download/3.24.1/doppler_3.24.1_linux_arm64.deb";
       References.checksum := Some Sample.digest_a |}
  = References.Factory.algorithm References.doppler_windows_armv7.
Proof.
  apply (make_keeps_algorithm Sample.ignorable Sample.accept_http
           Sample.doppler_world Sample.beyond References.doppler_windows_armv7 0).
  vm_compute. reflexivity.
Defined.

(** X7. Every field of the Reference [make] returns has gone through
    validation, whichever populate step ran and however far it got: the two
    addresses are unset or values the validation of addresses produced, and
    the checksum is unset or a text that neither starts nor ends with
    whitespace. *)
Theorem make_returns_validated_fields
  (IGNORED_EXCEPTIONS : exn -> bool) (HttpUrl : string -> option string)
  (w : World) (beyond : string -> string -> result string)
  (self : References.ReferenceFactory) (t : nat)
  (ref : References.Reference) :
  fst (fst (References.make IGNORED_EXCEPTIONS HttpUrl w beyond self t)) = Ok ref ->
  validated HttpUrl (References.checksum_url ref)
  /\ validated HttpUrl (References.download_url ref)
  /\ stripped (References.checksum ref).
Proof.
  intros H.
  exact (proj2 (make_well_formed HttpUrl w beyond _ IGNORED_EXCEPTIONS self t ref
                  eq_refl H)).
Qed.

Lemma make_returns_validated_fields_witness :
  validated Sample.accept_http
    (References.checksum_url
       {| References.algorithm := "sha512";
          References.checksum_url := Some "https://hecksum.com/failureSHA512.txt";
          References.download_url := Some "https://hecksum.com/failure.txt";
          References.checksum := Some "abc123" |})
  /\ validated Sample.accept_http
       (References.download_url
          {| References.algorithm := "sha512";
             References.checksum_url := Some "https://hecksum.com/failureSHA512.txt";
             References.download_url := Some "https://hecksum.com/failure.txt";
             References.checksum := Some "abc123" |})
  /\ stripped
       (References.checksum
          {| References.algorithm := "sha512";
             References.checksum_url := Some "https://hecksum.com/failureSHA512.txt";
             References.download_url := Some "https://hecksum.com/failure.txt";
             References.checksum := Some "abc123" |}).
Proof.
  apply (make_returns_validated_fields Sample.ignorable Sample.accept_http
           (Sample.serving ("  abc123 " ++ Sample.nl)) Sample.beyond
           References.test_failure 0).
  vm_compute. reflexivity.
Defined.

Section ReferencesSending.
Import References.
Variable HttpUrl : string -> option string.
Variable w : World.
Variable beyond : string -> string -> result string.

Lemma rf_sends_read {A} (f : Reference -> A) :
  sends (F := ReferenceFactory) 0 (read_ref f).
Proof. intros st. cbn. lia. Qed.

Lemma rf_sends_update f : sends (F := ReferenceFactory) 0 (update_ref f).
Proof. intros st. cbn. lia. Qed.

Lemma rf_sends_set_checksum v : sends (F := ReferenceFactory) 0 (set_checksum v).
Proof. apply rf_sends_update. Qed.

Lemma rf_sends_set_checksum_url v :
  sends (F := ReferenceFactory) 0 (set_checksum_url HttpUrl v).
Proof.
  intros st. unfold set_checksum_url, bind, lift.
  destruct (validate_url HttpUrl (Some v)); cbn; lia.
Qed.

Lemma rf_sends_set_download_url v :
  sends (F := ReferenceFactory) 0 (set_download_url HttpUrl v).
Proof.
  intros st. unfold set_download_url, bind, lift.
  destruct (validate_url HttpUrl (Some v)); cbn; lia.
Qed.

Hint Resolve rf_sends_read rf_sends_update rf_sends_set_checksum
  rf_sends_set_checksum_url rf_sends_set_download_url : sent.

Lemma rf_generic_sends : sends 1 (populate_generic w).
Proof. unfold populate_generic, get_raised. sent_steps. Qed.

Lemma rf_codecov_sends : sends 2 (populate_codecov HttpUrl w).
Proof. unfold populate_codecov, get_raised. sent_steps. Qed.

Lemma rf_transmission_sends a b c :
  sends 1 (populate_transmission HttpUrl w beyond a b c).
Proof. unfold populate_transmission, get_raised. sent_steps. Qed.

Lemma rf_doppler_sends a : sends 2 (populate_doppler HttpUrl w a).
Proof. unfold populate_doppler, get_raised. sent_steps. Qed.

Lemma rf_populate_sends : sends 2 (_populate HttpUrl w beyond).
Proof.
  intros st. unfold _populate.
  destruct (Factory.strategy (self_ st)).
  - pose proof (rf_generic_sends st). lia.
  - apply rf_codecov_sends.
  - pose proof (rf_transmission_sends file_name_template sha_key version_key st).
    lia.
  - apply rf_doppler_sends.
Qed.
End ReferencesSending.

Section HecksumSending.
Import Hecksum.
Variable w : World.
Variable beyond : string -> string -> result string.

Lemma hk_sends_read {A} (f : Reference -> A) :
  sends (F := ReferenceFactory) 0 (read_ref f).
Proof. intros st. cbn. lia. Qed.

Lemma hk_sends_update f : sends (F := ReferenceFactory) 0 (update_ref f).
Proof. intros st. cbn. lia. Qed.

Lemma hk_sends_attr name : sends (F := ReferenceFactory) 0 (read_attr name).
Proof. intros st. cbn. lia. Qed.

Hint Resolve hk_sends_read hk_sends_update hk_sends_attr : sent.
Hint Unfold set_checksum set_checksum_url set_download_url : sent.

Lemma hk_populate_sends : sends 2 (_populate w beyond).
Proof.
  assert (sends 2 (populate_generic w))
    by (unfold populate_generic; sent_steps).
  assert (sends 2 (populate_codecov w))
    by (unfold populate_codecov; sent_steps).
  assert (sends 2 (populate_transmission w beyond))
    by (unfold populate_transmission; sent_steps).
  intros st. unfold _populate.
  destruct (Factory.strategy (self_ st)); unfold sends in *; auto.
Qed.
End HecksumSending.

(** X8. A call of [make] sends at most two requests, in both files,
    whatever the factory and whatever the remote side answers. *)
Theorem make_sends_at_most_two
  (IGNORED_EXCEPTIONS : exn -> bool) (HttpUrl : string -> option string)
  (w : World) (beyond : string -> string -> result string) (t : nat)
  (self : References.ReferenceFactory) (self' : Hecksum.ReferenceFactory) :
  (t <= snd (References.make IGNORED_EXCEPTIONS HttpUrl w beyond self t) <= t + 2)
  /\ (t <= snd (Hecksum.make w beyond self' t) <= t + 2).
Proof.
  split.
  - unfold References.make.
    destruct (References.Reference_of HttpUrl self) as [ref0|e]; [|cbn; lia].
    pose proof (sends_try_pass 2 _ IGNORED_EXCEPTIONS (rf_populate_sends HttpUrl w beyond)
                  {| self_ := self; ref_ := ref0; clock := t |}) as H.
    destruct (try_pass _ _ _) as [o st]. exact H.
  - unfold Hecksum.make.
    pose proof (sends_try_pass 2 _ is_Exception (hk_populate_sends w beyond)
                  {| self_ := self'; ref_ := Hecksum.new_Reference self';
                     clock := t |}) as H.
    destruct (try_pass _ _ _) as [o st]. exact H.
Qed.

(* ================================================================= *)
(** ** Further properties: population that stops partway *)

Lemma bind_raise {S A B} (m : M S A) (k : A -> M S B) (st st' : S) (e : exn) :
  m st = (Raise e, st') -> bind m k st = (Raise e, st').
Proof. intros H. unfold bind. now rewrite H. Qed.

Lemma get_raised_refused {F R} (w : World) (u : string) (r : Response)
  (st : Store F R) :
  w (clock st) u = Ok r ->
  (400 <= status_code r < 600)%Z ->
  get_raised w (Some u) st
  = (Raise HTTPError,
     {| self_ := self_ st; ref_ := ref_ st; clock := S (clock st) |}).
Proof.
  intros Hw Hs. unfold get_raised, bind, requests_get, http_get, lift, raise_for_status.
  rewrite Hw.
  replace (400 <=? status_code r)%Z with true by (symmetry; apply Z.leb_le; lia).
  replace (status_code r <? 600)%Z with true by (symmetry; apply Z.ltb_lt; lia).
  reflexivity.
Qed.

(** X9. When the checksum address of a generic factory answers with an
    error status and HTTPError is ignorable, [make] returns the Reference
    as the factory seeded it, after one request; with no seed checksum that
    Reference is not populated. *)
Theorem generic_refused_is_unpopulated
  (IGNORED_EXCEPTIONS : exn -> bool) (HttpUrl : string -> option string)
  (w : World) (beyond : string -> string -> result string)
  (self : References.ReferenceFactory) (t : nat)
  (ref0 : References.Reference) (u : string) (r : Response) :
  References.Factory.strategy self = References.Generic ->
  References.Factory.checksum self = None ->
  References.Reference_of HttpUrl self = Ok ref0 ->
  References.checksum_url ref0 = Some u ->
  w t u = Ok r ->
  (400 <= status_code r < 600)%Z ->
  IGNORED_EXCEPTIONS HTTPError = true ->
  References.make IGNORED_EXCEPTIONS HttpUrl w beyond self t = (Ok ref0, self, S t)
  /\ References.populated ref0 = false.
Proof.
  intros Hg Hc Hnew Hu Hw Hs Hi. split.
  - unfold References.make, try_pass, References._populate.
    rewrite Hnew. cbn [self_]. rewrite Hg.
    unfold References.populate_generic, References.get_raised.
    erewrite bind_ok by reflexivity. cbn [ref_]. rewrite Hu.
    erewrite bind_raise by (apply (get_raised_refused w u r); [exact Hw | exact Hs]).
    now rewrite Hi.
  - unfold References.Reference_of, References.new_Reference in Hnew.
    rewrite Hc in Hnew.
    destruct (References.validate_url HttpUrl _) in Hnew; [|discriminate].
    destruct (References.validate_url HttpUrl _) in Hnew; [|discriminate].
    injection Hnew as <-. unfold References.populated. cbn.
    now rewrite !andb_false_r.
Qed.

Lemma generic_refused_is_unpopulated_witness :
  References.make Sample.ignorable Sample.accept_http
    (Sample.answering 404 "Not Found") Sample.beyond References.test_failure 0
  = (Ok {| References.algorithm := "sha512";
           References.checksum_url := Some "https://hecksum.com/failureSHA512.txt";
           References.download_url := Some "https://hecksum.com/failure.txt";
           References.checksum := None |},
     References.test_failure, 1)
  /\ References.populated
       {| References.algorithm := "sha512";
          References.checksum_url := Some "https://hecksum.com/failureSHA512.txt";
          References.download_url := Some "https://hecksum.com/failure.txt";
          References.checksum := None |} = false.
Proof.
  apply (generic_refused_is_unpopulated Sample.ignorable Sample.accept_http
           (Sample.answering 404 "Not Found") Sample.beyond
           References.test_failure 0
           {| References.algorithm := "sha512";
              References.checksum_url := Some "https://hecksum.com/failureSHA512.txt";
              References.download_url := Some "https://hecksum.com/failure.txt";
              References.checksum := None |}
           "https://hecksum.com/failureSHA512.txt"
           (Sample.answer 404 "Not Found")).
  - reflexivity.
  - reflexivity.
  - reflexivity.
  - reflexivity.
  - reflexivity.
  - simpl. lia.
  - reflexivity.
Defined.



(** X11. When the address the latest-release request ended at holds no
    release number, the Doppler populate step raises TypeError after that
    one request and leaves the Reference as it was; the status of the
    response is not looked at. *)
Theorem doppler_without_release_number
  (HttpUrl : string -> option string) (w : World)
  (self : References.ReferenceFactory) (ref0 : References.Reference) (t : nat)
  (architecture : string) (r : Response) :
  w t References.latest_release = Ok r ->
  Re.search References.release_pattern (url r) = None ->
  References.populate_doppler HttpUrl w architecture
    {| self_ := self; ref_ := ref0; clock := t |}
  = (Raise TypeError, {| self_ := self; ref_ := ref0; clock := S t |}).
Proof.
  intros Hw Hnone. unfold References.populate_doppler.
  erewrite bind_ok by (apply requests_get_ok; exact Hw).
  rewrite Hnone. cbn [item_of].
  now erewrite bind_raise by reflexivity.
Qed.

Lemma doppler_without_release_number_witness :
  References.populate_doppler Sample.accept_http
    (fun _ _ => Ok Sample.login_page) "linux_arm64"
    {| self_ := References.doppler_windows_armv7;
       ref_ := {| References.algorithm := "sha256";
                  References.checksum_url := None;
                  References.download_url := None;
                  References.checksum := None |};
       clock := 0 |}
  = (Raise TypeError,
     {| self_ := References.doppler_windows_armv7;
        ref_ := {| References.algorithm := "sha256";
                   References.checksum_url := None;
                   References.download_url := None;
                   References.checksum := None |};
        clock := 1 |}).
Proof.
  apply (doppler_without_release_number Sample.accept_http
           (fun _ _ => Ok Sample.login_page) References.doppler_windows_armv7
           {| References.algorithm := "sha256";
              References.checksum_url := None;
              References.download_url := None;
              References.checksum := None |}
           0 "linux_arm64" Sample.login_page).
  - reflexivity.
  - vm_compute. reflexivity.
Defined.



(* ================================================================= *)
(** ** Further properties: the checksum of a download *)




(** X14. The hash object is made before the download is asked for: with an
    algorithm hashlib does not know, the checksum of a download raises
    ValueError and no request is sent, whatever the download address. *)
Theorem download_checksum_unknown_algorithm
  (other : string -> option (list byte -> list byte)) (w : World)
  (self : References.Reference) (t : nat) :
  References.algorithm self <> "sha256" ->
  other (References.algorithm self) = None ->
  References.get_download_checksum other w self t = (Raise ValueError, t).
Proof.
  intros Ha Ho.
  unfold References.get_download_checksum, bind, lift, References.hashlib_new.
  apply String.eqb_neq in Ha. now rewrite Ha, Ho.
Qed.

Lemma download_checksum_unknown_algorithm_witness :
  References.get_download_checksum Sample.sha256_only
    (Sample.serving_file [])
    {| References.algorithm := "sha512";
       References.checksum_url := None;
       References.download_url := Some "https://hecksum.com/failure.txt";
       References.checksum := None |} 0
  = (Raise ValueError, 0).
Proof.
  apply (download_checksum_unknown_algorithm Sample.sha256_only
           (Sample.serving_file [])
           {| References.algorithm := "sha512";
              References.checksum_url := None;
              References.download_url := Some "https://hecksum.com/failure.txt";
              References.checksum := None |} 0).
  - simpl. discriminate.
  - reflexivity.
Defined.

Section DigestShape.
Import Sha256.

Lemma round_length v kw : List.length (round v kw) = List.length v.
Proof.
  unfold round.
  destruct v as [|a [|b [|c [|d [|e [|f [|g [|h [|i v]]]]]]]]]; reflexivity.
Qed.

Lemma rounds_length kws : forall v,
  List.length (List.fold_left round kws v) = List.length v.
Proof.
  induction kws as [|kw kws IH]; intros v; cbn [List.fold_left]; [reflexivity|].
  now rewrite IH, round_length.
Qed.

Lemma compress_length h block : List.length (compress h block) = List.length h.
Proof.
  unfold compress.
  rewrite List.length_map, List.length_combine, rounds_length.
  apply Nat.min_id.
Qed.

Lemma compressions_length bs : forall h,
  List.length (List.fold_left compress bs h) = List.length h.
Proof.
  induction bs as [|b bs IH]; intros h; cbn [List.fold_left]; [reflexivity|].
  now rewrite IH, compress_length.
Qed.

Lemma be_bytes_length n : forall x, List.length (be_bytes n x) = n.
Proof.
  induction n as [|n IH]; intros x; cbn [be_bytes]; [reflexivity|].
  rewrite List.length_app, IH. cbn [List.length]. lia.
Qed.

Lemma words_bytes_length (h : list Z) :
  List.length (List.flat_map (be_bytes 4) h) = 4 * List.length h.
Proof.
  induction h as [|x h IH]; [reflexivity|].
  cbn [List.flat_map]. rewrite List.length_app, be_bytes_length, IH.
  cbn [List.length]. lia.
Qed.

(** A SHA-256 digest has thirty-two bytes. *)
Lemma digest_length msg : List.length (digest msg) = 32.
Proof.
  unfold digest. cbv zeta.
  rewrite List.length_map, words_bytes_length, compressions_length.
  reflexivity.
Qed.
End DigestShape.

Lemma hex_length bs : String.length (hex bs) = 2 * List.length bs.
Proof.
  induction bs as [|b bs IH]; [reflexivity|].
  cbn [hex String.length List.length]. rewrite IH. lia.
Qed.

Lemma hex_digits bs : all_chars is_hex (hex bs) = true.
Proof.
  induction bs as [|b bs IH]; [reflexivity|].
  cbn [hex all_chars]. rewrite IH, andb_true_r.
  destruct b; reflexivity.
Qed.

(** X15. Whenever the checksum of a download is computed with sha256, it is
    a text of sixty-four lowercase hexadecimal digits. *)
Theorem sha256_checksum_shape
  (other : string -> option (list byte -> list byte)) (w : World)
  (self : References.Reference) (t t' : nat) (c : string) :
  References.algorithm self = "sha256" ->
  References.get_download_checksum other w self t = (Ok c, t') ->
  String.length c = 64 /\ all_chars is_hex c = true.
Proof.
  intros Ha. unfold References.get_download_checksum, bind, lift, ret, http_get.
  rewrite Ha. cbn [References.hashlib_new String.eqb Ascii.eqb Bool.eqb].
  destruct (References.download_url self) as [u|]; [|discriminate].
  destruct (w t u) as [r|e]; [|discriminate].
  destruct (raise_for_status r); [|discriminate].
  rewrite fold_update. unfold References.hexdigest. cbn [References.algo].
  intros [= <- _]. split.
  - now rewrite hex_length, digest_length.
  - apply hex_digits.
Qed.

Lemma sha256_checksum_shape_witness :
  String.length (hex (Sha256.digest [])) = 64
  /\ all_chars is_hex (hex (Sha256.digest [])) = true.
Proof.
  apply (sha256_checksum_shape Sample.sha256_only (Sample.serving_file [])
           {| References.algorithm := "sha256";
              References.checksum_url := None;
              References.download_url := Some "https://hecksum.com/failure.txt";
              References.checksum := None |}
           0 1 (hex (Sha256.digest []))).
  - reflexivity.
  - vm_compute. reflexivity.
Defined.

(* ================================================================= *)
(** ** Further properties: the uploader factory *)

Section Uploader.
Import Text Re.

Lemma version_pattern_run s caps :
  run Patterns.version_pattern s caps
  = match strip_prefix version_opening s with
    | Some s' => List.map (after version_opening) (run quoted s' caps)
    | None => []
    end.
Proof.
  unfold Patterns.version_pattern, cats, version_opening.
  cbn [List.fold_right]. rewrite run_cat_lits, strip_prefix_split.
  destruct (strip_prefix "VERSION=" s) as [s1|]; [|reflexivity].
  rewrite run_cat_lit.
  destruct (strip_prefix (String quote EmptyString) s1) as [s2|]; [|reflexivity].
  now rewrite after_after.
Qed.

Lemma match_at_version v trail :
  contains newline v = false ->
  contains quote (first_line trail) = false ->
  match_at Patterns.version_pattern (version_opening ++ v ++ String quote trail)
  = Some {| whole := version_opening ++ v ++ String quote EmptyString;
            groups := [(1, v)] |}.
Proof.
  intros Hv Ht. unfold match_at.
  rewrite version_pattern_run, strip_prefix_app.
  destruct (run_quoted v trail [] Hv Ht) as [others ->].
  reflexivity.
Qed.

Lemma match_at_version_none s :
  startswith s version_opening = false ->
  match_at Patterns.version_pattern s = None.
Proof.
  intros Hs. unfold match_at, startswith in *.
  rewrite version_pattern_run.
  now destruct (strip_prefix version_opening s).
Qed.

(** Where the opening of the version first occurs, followed by a value
    and a closing quote that is the last one of its line, the search for
    the version pattern finds that value. *)
Lemma search_version v pre trail :
  contains newline v = false ->
  contains quote (first_line trail) = false ->
  find version_opening (pre ++ version_opening ++ v ++ String quote trail)
  = Some (String.length pre) ->
  search Patterns.version_pattern
         (pre ++ version_opening ++ v ++ String quote trail)
  = Some {| whole := version_opening ++ v ++ String quote EmptyString;
            groups := [(1, v)] |}.
Proof.
  intros Hv Ht Hf.
  rewrite (search_skips _ version_opening pre _ match_at_version_none Hf).
  pose proof (match_at_version v trail Hv Ht) as Hm.
  destruct (version_opening ++ v ++ String quote trail); cbn [search];
    now rewrite Hm.
Qed.

Lemma rep_run_two_spaces s :
  rep_run 2 (Lit " ") s
  = match strip_prefix "  " s with
    | Some s' => [("  ", s')]
    | None => []
    end.
Proof.
  destruct s as [|a [|b s]];
    cbn [rep_run strip_prefix atom_matches List.map extend fst snd];
    try reflexivity.
  - now destruct (Ascii.eqb " " a).
  - destruct (Ascii.eqb_spec " " a) as [<-|_]; [|reflexivity].
    now destruct (Ascii.eqb_spec " " b) as [<-|_].
Qed.

(** The end of the manifest pattern matches exactly where the input goes
    on with two spaces and the word codecov. *)
Lemma run_codecov_tail s caps :
  run (Cat (Rep 2 (Lit " ")) (Cat (lits "codecov") Eps)) s caps
  = match strip_prefix codecov_tail s with
    | Some s' => [(caps, codecov_tail, s')]
    | None => []
    end.
Proof.
  change codecov_tail with ("  " ++ "codecov").
  rewrite strip_prefix_split.
  change (run (Cat (Rep 2 (Lit " ")) (Cat (lits "codecov") Eps)) s caps)
    with (List.flat_map
            (fun w1 : way =>
               let '(c1, m1, s1) := w1 in
               List.map (after m1) (run (Cat (lits "codecov") Eps) s1 c1))
            (List.map (with_caps caps) (rep_run 2 (Lit " ") s))).
  rewrite rep_run_two_spaces.
  destruct (strip_prefix "  " s) as [s1|]; [|reflexivity].
  cbn [List.map List.flat_map with_caps fst snd].
  rewrite run_cat_lits, List.app_nil_r.
  destruct (strip_prefix "codecov" s1); reflexivity.
Qed.

(** On a line that ends with two spaces and the word codecov, the
    manifest pattern matches from the start and its group is what comes
    before them. *)
Lemma match_at_codecov c :
  contains newline c = false ->
  match_at Patterns.codecov_pattern (c ++ codecov_tail)
  = Some {| whole := c ++ codecov_tail; groups := [(1, c)] |}.
Proof.
  intros Hc. unfold match_at, Patterns.codecov_pattern, cats.
  cbn [List.fold_right].
  change (run (Cat (Group 1 (Star Dot))
                   (Cat (Rep 2 (Lit " ")) (Cat (lits "codecov") Eps)))
              (c ++ codecov_tail) [])
    with (List.flat_map
            (fun w1 : way =>
               let '(c1, m1, s1) := w1 in
               List.map (after m1)
                 (run (Cat (Rep 2 (Lit " ")) (Cat (lits "codecov") Eps)) s1 c1))
            (List.map (capture 1)
               (List.map (with_caps []) (star_run Dot (c ++ codecov_tail))))).
  destruct (star_run_value c codecov_tail Hc) as [shorter ->].
  rewrite !List.map_app, List.flat_map_app, !List.map_map.
  let l := eval vm_compute in (star_run Dot codecov_tail) in
  change (star_run Dot codecov_tail) with l.
  cbn [List.map List.flat_map prepend capture with_caps fst snd].
  rewrite !run_codecov_tail. cbn.
  now rewrite string_app_empty.
Qed.

Lemma search_codecov_line c :
  contains newline c = false ->
  search Patterns.codecov_pattern (c ++ codecov_tail)
  = Some {| whole := c ++ codecov_tail; groups := [(1, c)] |}.
Proof.
  intros Hc. pose proof (match_at_codecov c Hc) as Hm.
  destruct (c ++ codecov_tail); cbn [search]; now rewrite Hm.
Qed.

Lemma star_run_split a s :
  Forall (fun p => fst p ++ snd p = s) (star_run a s).
Proof.
  induction s as [|c s IH]; cbn [star_run].
  - now repeat constructor.
  - destruct (atom_matches a c); [|now repeat constructor].
    apply List.Forall_app. split; [|now repeat constructor].
    apply List.Forall_map. eapply List.Forall_impl; [|exact IH].
    intros [m rest] H. cbn [extend fst snd] in *.
    change (String c m ++ rest) with (String c (m ++ rest)). now rewrite H.
Qed.

Lemma find_none_tail k c s : find k (String c s) = None -> find k s = None.
Proof.
  cbn [find]. destruct (startswith (String c s) k); [discriminate|].
  now destruct (find k s).
Qed.

Lemma find_none_head k s : find k s = None -> startswith s k = false.
Proof.
  destruct s as [|c s]; cbn [find];
    now destruct (startswith _ k).
Qed.

Lemma find_none_inside k g rest :
  find k (g ++ rest) = None -> startswith rest k = false.
Proof.
  induction g as [|c g IH]; intros H.
  - now apply find_none_head.
  - change (String c g ++ rest) with (String c (g ++ rest)) in H.
    apply IH. eapply find_none_tail, H.
Qed.

Lemma match_at_codecov_none s :
  occurs codecov_tail s = false ->
  match_at Patterns.codecov_pattern s = None.
Proof.
  intros Ho. unfold occurs in Ho.
  destruct (find codecov_tail s) eqn:Hf; [discriminate|].
  unfold match_at, Patterns.codecov_pattern, cats. cbn [List.fold_right].
  change (run (Cat (Group 1 (Star Dot))
                   (Cat (Rep 2 (Lit " ")) (Cat (lits "codecov") Eps))) s [])
    with (List.flat_map
            (fun w1 : way =>
               let '(c1, m1, s1) := w1 in
               List.map (after m1)
                 (run (Cat (Rep 2 (Lit " ")) (Cat (lits "codecov") Eps)) s1 c1))
            (List.map (capture 1) (List.map (with_caps []) (star_run Dot s)))).
  rewrite flat_map_nil; [reflexivity|].
  rewrite !List.Forall_map.
  eapply List.Forall_impl; [|apply (star_run_split Dot s)].
  intros [m rest] Hsplit. cbn [fst snd with_caps capture] in *.
  rewrite run_codecov_tail. subst s.
  pose proof (find_none_inside codecov_tail m rest Hf) as Hs.
  unfold startswith in Hs.
  now destruct (strip_prefix codecov_tail rest).
Qed.

(** A line without two spaces and the word codecov has no match. *)
Lemma search_codecov_none s :
  occurs codecov_tail s = false ->
  search Patterns.codecov_pattern s = None.
Proof.
  induction s as [|c s IH]; intros Ho; cbn [search];
    rewrite (match_at_codecov_none _ Ho); [reflexivity|].
  apply IH. unfold occurs in *.
  destruct (find codecov_tail (String c s)) eqn:Hf; [discriminate|].
  now rewrite (find_none_tail _ _ _ Hf).
Qed.

Lemma codecov_pattern_nl_free : nl_free Patterns.codecov_pattern = true.
Proof. reflexivity. Qed.

(** In a manifest of lines, the search gives the text before two spaces
    and the word codecov on the first line that ends with them, when no
    line before has them. *)
Lemma search_codecov_manifest before c post :
  Forall (fun l => occurs codecov_tail l = false) before ->
  contains newline c = false ->
  search Patterns.codecov_pattern
         (join_lines (before ++ (c ++ codecov_tail) :: post))
  = Some {| whole := c ++ codecov_tail; groups := [(1, c)] |}.
Proof.
  intros Hbefore Hc. apply search_lines.
  - exact codecov_pattern_nl_free.
  - eapply List.Forall_impl; [|exact Hbefore].
    intros l. apply search_codecov_none.
  - now apply search_codecov_line.
Qed.
End Uploader.

Lemma strip_of_bare c : bare c = true -> Text.strip c = c.
Proof.
  intros H. pose proof (strip_trims EmptyString c EmptyString eq_refl eq_refl H) as E.
  change (EmptyString ++ c ++ EmptyString) with (c ++ EmptyString) in E.
  now rewrite string_app_empty in E.
Qed.

(** X16. The uploader populate step reads the version between the double
    quotes after the first [VERSION=] of the script, fetches the manifest of
    that version, and takes as checksum what stands before two spaces and
    the word codecov on the first manifest line that ends with them, when
    no line before has them.  The download address stays as it was, and
    two requests are sent. *)
Theorem codecov_reads_version_then_manifest
  (HttpUrl : string -> option string) (w : World)
  (self : References.ReferenceFactory) (ref0 : References.Reference) (t : nat)
  (u manifest version c pre trail : string) (r r' : Response)
  (before post : list string) :
  References.download_url ref0 = Some u ->
  w t u = Ok r ->
  (200 <= status_code r < 300)%Z ->
  text r = pre ++ version_opening ++ version ++ String Text.quote trail ->
  Text.find version_opening (text r) = Some (String.length pre) ->
  Text.contains Text.newline version = false ->
  Text.contains Text.quote (Text.first_line trail) = false ->
  HttpUrl (codecov_manifest version) = Some manifest ->
  w (S t) manifest = Ok r' ->
  (200 <= status_code r' < 300)%Z ->
  text r' = Text.join_lines (before ++ (c ++ codecov_tail) :: post) ->
  Forall (fun l => Text.occurs codecov_tail l = false) before ->
  Text.contains Text.newline c = false ->
  bare c = true ->
  References.populate_codecov HttpUrl w
    {| self_ := self; ref_ := ref0; clock := t |}
  = (Ok tt,
     {| self_ := self;
        ref_ := {| References.algorithm := References.algorithm ref0;
                   References.checksum_url := Some manifest;
                   References.download_url := Some u;
                   References.checksum := Some c |};
        clock := S (S t) |}).
Proof.
  intros Hu Hw Hs Htext Hfind Hversion Htrail Hmanifest Hw' Hs' Htext' Hbefore
         Hc Hbare.
  assert (Hv : Re.search Patterns.version_pattern (text r)
               = Some {| Re.whole := version_opening ++ version
                                     ++ String Text.quote EmptyString;
                         Re.groups := [(1, version)] |}).
  { revert Hfind. rewrite Htext. intros Hfind. now apply search_version. }
  assert (Hm : Re.search Patterns.codecov_pattern (text r')
               = Some {| Re.whole := c ++ codecov_tail; Re.groups := [(1, c)] |}).
  { rewrite Htext'. now apply search_codecov_manifest. }
  unfold References.populate_codecov, References.get_raised.
  erewrite bind_ok by reflexivity. cbn [ref_]. rewrite Hu.
  erewrite bind_ok by (apply get_raised_success; [exact Hw | exact Hs]).
  cbv zeta. rewrite Hv. cbn [group_of Re.group Re.lookup_group Nat.eqb].
  erewrite bind_ok by reflexivity. cbn [Text.to_str].
  erewrite bind_ok by (apply set_checksum_url_ok; exact Hmanifest).
  erewrite bind_ok by reflexivity. cbn [ref_ References.checksum_url].
  erewrite bind_ok by (apply get_raised_success; [exact Hw' | exact Hs']).
  rewrite Hm. cbn [group_of Re.group Re.lookup_group Nat.eqb].
  erewrite bind_ok by reflexivity.
  unfold References.set_checksum, References.update_ref, References.validate_checksum.
  cbn [self_ ref_ clock option_map References.algorithm References.checksum_url
       References.download_url References.checksum Re.groups Re.lookup_group
       Nat.eqb].
  now rewrite Hu, (strip_of_bare c Hbare).
Qed.

Lemma codecov_reads_version_then_manifest_witness :
  References.populate_codecov Sample.accept_http Sample.uploader_world
    {| self_ := References.codecov_bash_uploader;
       ref_ := {| References.algorithm := "sha512";
                  References.checksum_url := None;
                  References.download_url := Some "https://codecov.io/bash";
                  References.checksum := None |};
       clock := 0 |}
  = (Ok tt,
     {| self_ := References.codecov_bash_uploader;
        ref_ := {| References.algorithm := "sha512";
                   References.checksum_url := Some (codecov_manifest "1.0.6");
                   References.download_url := Some "https://codecov.io/bash";
                   References.checksum := Some Sample.digest_a |};
        clock := 2 |}).
Proof.
  apply (codecov_reads_version_then_manifest Sample.accept_http
           Sample.uploader_world References.codecov_bash_uploader
           {| References.algorithm := "sha512";
              References.checksum_url := None;
              References.download_url := Some "https://codecov.io/bash";
              References.checksum := None |}
           0 "https://codecov.io/bash" (codecov_manifest "1.0.6") "1.0.6"
           Sample.digest_a
           ("#!/usr/bin/env bash" ++ Sample.nl)
           (Sample.nl ++ "echo done" ++ Sample.nl)
           (Sample.page Sample.uploader_script)
           (Sample.page (Text.join_lines Sample.uploader_manifest))
           [Sample.digest_b ++ "  env"] [EmptyString]).
  - reflexivity.
  - reflexivity.
  - simpl. lia.
  - reflexivity.
  - vm_compute. reflexivity.
  - reflexivity.
  - reflexivity.
  - reflexivity.
  - reflexivity.
  - simpl. lia.
  - reflexivity.
  - repeat constructor.
  - reflexivity.
  - reflexivity.
Defined.

(** X17. In src/hecksum.py the uploader populate step reads the same two
    texts and stores them as they are: the address of the manifest is not
    validated and the checksum is not stripped. *)
Theorem legacy_codecov_reads_version_then_manifest
  (w : World) (self : Hecksum.ReferenceFactory) (ref0 : Hecksum.Reference)
  (t : nat) (u version c pre trail : string) (r r' : Response)
  (before post : list string) :
  Hecksum.download_url ref0 = Some u ->
  w t u = Ok r ->
  (200 <= status_code r < 300)%Z ->
  text r = pre ++ version_opening ++ version ++ String Text.quote trail ->
  Text.find version_opening (text r) = Some (String.length pre) ->
  Text.contains Text.newline version = false ->
  Text.contains Text.quote (Text.first_line trail) = false ->
  w (S t) (codecov_manifest version) = Ok r' ->
  (200 <= status_code r' < 300)%Z ->
  text r' = Text.join_lines (before ++ (c ++ codecov_tail) :: post) ->
  Forall (fun l => Text.occurs codecov_tail l = false) before ->
  Text.contains Text.newline c = false ->
  Hecksum.populate_codecov w {| self_ := self; ref_ := ref0; clock := t |}
  = (Ok tt,
     {| self_ := self;
        ref_ := {| Hecksum.hash_function := Hecksum.hash_function ref0;
                   Hecksum.checksum_url := Some (codecov_manifest version);
                   Hecksum.download_url := Some u;
                   Hecksum.checksum := Some c |};
        clock := S (S t) |}).
Proof.
  intros Hu Hw Hs Htext Hfind Hversion Htrail Hw' Hs' Htext' Hbefore Hc.
  assert (Hv : Re.search Patterns.version_pattern (text r)
               = Some {| Re.whole := version_opening ++ version
                                     ++ String Text.quote EmptyString;
                         Re.groups := [(1, version)] |}).
  { revert Hfind. rewrite Htext. intros Hfind. now apply search_version. }
  assert (Hm : Re.search Patterns.codecov_pattern (text r')
               = Some {| Re.whole := c ++ codecov_tail; Re.groups := [(1, c)] |}).
  { rewrite Htext'. now apply search_codecov_manifest. }
  unfold Hecksum.populate_codecov.
  erewrite bind_ok by reflexivity. cbn [ref_]. rewrite Hu.
  erewrite bind_ok by (apply get_raised_success; [exact Hw | exact Hs]).
  cbv zeta. rewrite Hv. cbn [group_of Re.group Re.lookup_group Nat.eqb].
  erewrite bind_ok by reflexivity. cbn [Text.to_str].
  erewrite bind_ok by reflexivity.
  erewrite bind_ok by reflexivity.
  cbn [ref_ Hecksum.checksum_url].
  erewrite bind_ok by (apply get_raised_success; [exact Hw' | exact Hs']).
  rewrite Hm. cbn [group_of Re.group Re.lookup_group Nat.eqb].
  erewrite bind_ok by reflexivity.
  unfold Hecksum.set_checksum, Hecksum.update_ref.
  cbn [self_ ref_ clock Hecksum.hash_function Hecksum.checksum_url
       Hecksum.download_url Hecksum.checksum Re.groups Re.lookup_group Nat.eqb].
  now rewrite Hu.
Qed.

Lemma legacy_codecov_reads_version_then_manifest_witness :
  Hecksum.populate_codecov Sample.uploader_world
    {| self_ := Sample.legacy_uploader;
       ref_ := Hecksum.new_Reference Sample.legacy_uploader;
       clock := 0 |}
  = (Ok tt,
     {| self_ := Sample.legacy_uploader;
        ref_ := {| Hecksum.hash_function :=
                     Hecksum.hash_function
                       (Hecksum.new_Reference Sample.legacy_uploader);
                   Hecksum.checksum_url := Some (codecov_manifest "1.0.6");
                   Hecksum.download_url := Some "https://codecov.io/bash";
                   Hecksum.checksum := Some Sample.digest_a |};
        clock := 2 |}).
Proof.
  apply (legacy_codecov_reads_version_then_manifest Sample.uploader_world
           Sample.legacy_uploader (Hecksum.new_Reference Sample.legacy_uploader)
           0 "https://codecov.io/bash" "1.0.6" Sample.digest_a
           ("#!/usr/bin/env bash" ++ Sample.nl)
           (Sample.nl ++ "echo done" ++ Sample.nl)
           (Sample.page Sample.uploader_script)
           (Sample.page (Text.join_lines Sample.uploader_manifest))
           [Sample.digest_b ++ "  env"] [EmptyString]).
  - reflexivity.
  - reflexivity.
  - simpl. lia.
  - reflexivity.
  - vm_compute. reflexivity.
  - reflexivity.
  - reflexivity.
  - reflexivity.
  - simpl. lia.
  - reflexivity.
  - repeat constructor.
  - reflexivity.
Defined.

(* ================================================================= *)
(** ** Further properties: the file name of a Transmission release *)

Section Templates.
Variable beyond : string -> string -> result string.

Lemma fmt_literal p : forall t version,
  brace_free p = true ->
  fmt Outside (p ++ t) version
  = match fmt Outside t version with
    | Ok s => Ok (p ++ s)
    | Raise e => Raise e
    end.
Proof.
  induction p as [|c p IH]; intros t version H.
  - change (EmptyString ++ t) with t. now destruct (fmt Outside t version).
  - cbn [brace_free] in H.
    apply andb_true_iff in H as [H Hp]. apply andb_true_iff in H as [Ho Hc].
    apply negb_true_iff in Ho. apply negb_true_iff in Hc.
    change (String c p ++ t) with (String c (p ++ t)).
    cbn [fmt]. rewrite Ho, Hc, (IH t version Hp).
    now destruct (fmt Outside t version).
Qed.

Lemma fmt_version t version :
  fmt Outside ("{version}" ++ t) version
  = match fmt Outside t version with
    | Ok s => Ok (version ++ s)
    | Raise e => Raise e
    end.
Proof. reflexivity. Qed.

Lemma modelled_literal p : forall t,
  brace_free p = true ->
  modelled_from false 0 (p ++ t) = modelled_from false 0 t.
Proof.
  induction p as [|c p IH]; intros t H; [reflexivity|].
  cbn [brace_free] in H.
  apply andb_true_iff in H as [H Hp]. apply andb_true_iff in H as [Ho Hc].
  apply negb_true_iff in Ho. apply negb_true_iff in Hc.
  change (String c p ++ t) with (String c (p ++ t)).
  cbn [modelled_from negb]. rewrite Ho, Hc. now apply IH.
Qed.

(** A template with one field for the version, and no other brace, gives
    the text before the field, the version and the text after it. *)
Lemma format_one_field prefix suffix version :
  brace_free prefix = true -> brace_free suffix = true ->
  format beyond (prefix ++ "{version}" ++ suffix) version
  = Ok (prefix ++ version ++ suffix).
Proof.
  intros Hp Hs. unfold format, modelled.
  rewrite (modelled_literal prefix _ Hp).
  change (modelled_from false 0 ("{version}" ++ suffix))
    with (modelled_from false 0 suffix).
  rewrite <- (string_app_empty suffix) at 1.
  rewrite (modelled_literal suffix EmptyString Hs). cbn [modelled_from].
  rewrite (fmt_literal prefix _ version Hp), fmt_version.
  rewrite <- (string_app_empty suffix) at 1.
  rewrite (fmt_literal suffix EmptyString version Hs). cbn [fmt].
  now rewrite string_app_empty.
Qed.
End Templates.

(** X18. For a Transmission factory whose template has one field for the
    version and no other brace, and whose keys have no metacharacter: when
    the script has the checksum constant and the version constant, each
    first at a place where its value stands between double quotes with no
    further double quote on the line, the populate step stores the checksum
    and the address of the file the template names for that version, and
    sends one request. *)
Theorem transmission_extracts_constants
  (HttpUrl : string -> option string) (w : World)
  (beyond : string -> string -> result string)
  (self : References.ReferenceFactory) (ref0 : References.Reference) (t : nat)
  (u download prefix suffix sha_key version_key c v : string) (r : Response)
  (pre1 trail1 pre2 trail2 : string) :
  References.checksum_url ref0 = Some u ->
  w t u = Ok r ->
  (200 <= status_code r < 300)%Z ->
  Re.plain sha_key = true ->
  Text.contains "."%char sha_key = false ->
  Re.plain version_key = true ->
  Text.contains "."%char version_key = false ->
  brace_free prefix = true ->
  brace_free suffix = true ->
  text r = pre1 ++ opening sha_key ++ c ++ String Text.quote trail1 ->
  Text.find (opening sha_key) (text r) = Some (String.length pre1) ->
  Text.contains Text.newline c = false ->
  Text.contains Text.quote (Text.first_line trail1) = false ->
  bare c = true ->
  text r = pre2 ++ opening version_key ++ v ++ String Text.quote trail2 ->
  Text.find (opening version_key) (text r) = Some (String.length pre2) ->
  Text.contains Text.newline v = false ->
  Text.contains Text.quote (Text.first_line trail2) = false ->
  HttpUrl (References.transmission_url (prefix ++ v ++ suffix)) = Some download ->
  References.populate_transmission HttpUrl w beyond
    (prefix ++ "{version}" ++ suffix) sha_key version_key
    {| self_ := self; ref_ := ref0; clock := t |}
  = (Ok tt,
     {| self_ := self;
        ref_ := {| References.algorithm := References.algorithm ref0;
                   References.checksum_url := Some u;
                   References.download_url := Some download;
                   References.checksum := Some c |};
        clock := S t |}).
Proof.
  intros Hu Hw Hs _ Hk1 _ Hk2 Hp Hsuf Htext1 Hfind1 Hc Htrail1 Hbare
         Htext2 Hfind2 Hv Htrail2 Hurl.
  assert (Hsha : Re.search (Patterns.constant_pattern sha_key) (text r)
                 = Some {| Re.whole := opening sha_key ++ c
                                       ++ String Text.quote EmptyString;
                           Re.groups := [(1, c)] |}).
  { revert Hfind1. rewrite Htext1. intros Hfind1. now apply search_constant. }
  assert (Hver : Re.search (Patterns.constant_pattern version_key) (text r)
                 = Some {| Re.whole := opening version_key ++ v
                                       ++ String Text.quote EmptyString;
                           Re.groups := [(1, v)] |}).
  { revert Hfind2. rewrite Htext2. intros Hfind2. now apply search_constant. }
  unfold References.populate_transmission, References.get_raised.
  erewrite bind_ok by reflexivity. cbn [ref_]. rewrite Hu.
  erewrite bind_ok by (apply get_raised_success; [exact Hw | exact Hs]).
  cbv zeta. rewrite Hsha, Hver. cbn [group_of Re.group Re.lookup_group Nat.eqb
                                     Re.groups].
  erewrite bind_ok by reflexivity.
  erewrite bind_ok by reflexivity.
  erewrite bind_ok by reflexivity.
  cbn [Text.to_str]. rewrite (format_one_field beyond prefix suffix v Hp Hsuf).
  erewrite bind_ok by reflexivity.
  erewrite set_download_url_ok by exact Hurl.
  cbn [self_ ref_ clock References.algorithm References.checksum_url
       References.download_url References.checksum References.validate_checksum
       option_map].
  now rewrite Hu, (strip_of_bare c Hbare).
Qed.

Lemma transmission_extracts_constants_witness :
  References.populate_transmission Sample.accept_http
    (Sample.serving Sample.two_lines) Sample.beyond
    ("Transmission-" ++ "{version}" ++ ".dmg") "sha256_dmg"
    "current_version_dmg"
    {| self_ := References.transmission_mac;
       ref_ := {| References.algorithm := "sha256";
                  References.checksum_url :=
                    Some "https://transmissionbt.com/includes/js/constants.js";
                  References.download_url := None;
                  References.checksum := None |};
       clock := 0 |}
  = (Ok tt,
     {| self_ := References.transmission_mac;
        ref_ := {| References.algorithm := "sha256";
                   References.checksum_url :=
                     Some "https://transmissionbt.com/includes/js/constants.js";
                   References.download_url :=
                     Some (References.transmission_url
                             ("Transmission-" ++ "3.00" ++ ".dmg"));
                   References.checksum := Some "deadbeef" |};
        clock := 1 |}).
Proof.
  apply (transmission_extracts_constants Sample.accept_http
           (Sample.serving Sample.two_lines) Sample.beyond
           References.transmission_mac
           {| References.algorithm := "sha256";
              References.checksum_url :=
                Some "https://transmissionbt.com/includes/js/constants.js";
              References.download_url := None;
              References.checksum := None |}
           0 "https://transmissionbt.com/includes/js/constants.js"
           (References.transmission_url ("Transmission-" ++ "3.00" ++ ".dmg"))
           "Transmission-" ".dmg" "sha256_dmg" "current_version_dmg"
           "deadbeef" "3.00"
           (Sample.page Sample.two_lines)
           ("const constants = {" ++ Sample.nl ++ "  ")
           ("," ++ Sample.nl ++ "  " ++ Sample.version_snippet ++ ","
            ++ Sample.nl ++ "};" ++ Sample.nl)
           ("const constants = {" ++ Sample.nl ++ "  " ++ Sample.sha_snippet ++ ","
            ++ Sample.nl ++ "  ")
           ("," ++ Sample.nl ++ "};" ++ Sample.nl)).
  - reflexivity.
  - reflexivity.
  - simpl. lia.
  - reflexivity.
  - reflexivity.
  - reflexivity.
  - reflexivity.
  - reflexivity.
  - reflexivity.
  - reflexivity.
  - vm_compute. reflexivity.
  - reflexivity.
  - reflexivity.
  - reflexivity.
  - reflexivity.
  - vm_compute. reflexivity.
  - reflexivity.
  - reflexivity.
  - reflexivity.
Defined.

(* ================================================================= *)
(** ** Further properties: the checksum of a release *)


Section Counted.
Import Text Re.



End Counted.


